(** * HCS dApp (vanilla JS): session and action coordinator

    A shallow embedding of [src/main.js].  The page script is a set of
    [async] functions over three process-wide variables, the DOM and two
    external libraries (the wallet-session connector and the ledger SDK).

    - JavaScript values that may be absent are [JsOpt]; thrown values are
      [JsError]; what an awaited promise settles to is an [Outcome].
    - An [async] function is a resumption computation [Async A]: it runs
      synchronously on the [State] until it returns, throws, or suspends at
      an [await] with a continuation.
    - The browser's event loop is the step relation [step] on [Runtime]:
      events are dispatched, library promises settle in any order with any
      outcome, and suspended continuations are resumed. *)

From Stdlib Require Import String Ascii List Bool Arith Lia NArith DecimalString.
Import ListNotations.
Open Scope string_scope.

(** ** Strings *)

Definition dq : string := String (ascii_of_nat 34) EmptyString.
Definition nl : string := String (ascii_of_nat 10) EmptyString.

(** JavaScript truthiness of a string: every string but the empty one. *)
Definition truthy_string (s : string) : bool :=
  match s with
  | EmptyString => false
  | String _ _ => true
  end.

(** [contains sub s]: [sub] occurs in [s]. *)
Definition contains (sub s : string) : Prop :=
  exists pre post, s = pre ++ sub ++ post.

Fixpoint containsb (sub s : string) : bool :=
  prefix sub s
  || match s with
     | EmptyString => false
     | String _ rest => containsb sub rest
     end.

(** ** JavaScript values of the two libraries *)

Inductive JsOpt (A : Type) : Type :=
| js_undefined
| js_null
| js_obj (a : A).
Arguments js_undefined {A}.
Arguments js_null {A}.
Arguments js_obj {A} a.

(** Truthiness of a possibly absent object: objects are always truthy. *)
Definition truthy {A} (v : JsOpt A) : bool :=
  match v with
  | js_obj _ => true
  | _ => false
  end.

(** [`${v}`]: string conversion inside a template literal. *)
Definition template {A} (toString : A -> string) (v : JsOpt A) : string :=
  match v with
  | js_undefined => "undefined"
  | js_null => "null"
  | js_obj a => toString a
  end.

Record JsError := { message : string }.

(** Reading a property or calling a method of [undefined] or [null]. *)
Definition TypeError_absent (what : string) : JsError :=
  {| message := "Cannot read properties of " ++ what |}.

Definition dec (n : N) : string := NilZero.string_of_uint (N.to_uint n).

(** Modelled from the spec: the SDK's entity identifiers are not under src/;
    the spec writes them [0.0.1234], that is shard, realm and number joined
    by dots. *)
Record AccountId := { account_shard : N; account_realm : N; account_num : N }.
Record TopicId := { topic_shard : N; topic_realm : N; topic_num : N }.

Definition AccountId_toString (a : AccountId) : string :=
  dec (account_shard a) ++ "." ++ dec (account_realm a) ++ "." ++ dec (account_num a).
Definition TopicId_toString (t : TopicId) : string :=
  dec (topic_shard t) ++ "." ++ dec (topic_realm t) ++ "." ++ dec (topic_num t).

(** A receipt status is an object with a textual representation. *)
Record Status := { Status_toString : string }.

Record Signer := { getAccountId : JsOpt AccountId }.

Record TransactionReceipt := {
  receipt_status : JsOpt Status;
  receipt_topicId : JsOpt TopicId
}.

Record TransactionResponse := { response_id : nat }.

Inductive Transaction : Type :=
| TopicCreateTransaction (memo : string)
| TopicMessageSubmitTransaction (topic : TopicId) (msg : string).

(** What a library promise can be fulfilled with. *)
Inductive Value : Type :=
| VUndefined
| VResponse (r : TransactionResponse)
| VReceipt (r : TransactionReceipt).

Inductive Outcome : Type :=
| Fulfilled (v : Value)
| Rejected (e : JsError).

(** [createTxResult.getReceiptWithSigner]: only a response has the method. *)
Definition as_response (v : Value) : JsError + TransactionResponse :=
  match v with
  | VResponse r => inr r
  | VUndefined => inl (TypeError_absent "undefined (reading 'getReceiptWithSigner')")
  | VReceipt _ => inl {| message := "getReceiptWithSigner is not a function" |}
  end.

(** [receipt.topicId] and [receipt.status]: a property read throws on
    [undefined] and is [undefined] on an object without the property. *)
Definition get_topicId (v : Value) : JsError + JsOpt TopicId :=
  match v with
  | VReceipt r => inr (receipt_topicId r)
  | VResponse _ => inr js_undefined
  | VUndefined => inl (TypeError_absent "undefined (reading 'topicId')")
  end.

Definition get_status (v : Value) : JsError + JsOpt Status :=
  match v with
  | VReceipt r => inr (receipt_status r)
  | VResponse _ => inr js_undefined
  | VUndefined => inl (TypeError_absent "undefined (reading 'status')")
  end.

(** [status.toString()]: a method call on an absent value throws. *)
Definition call_toString (v : JsOpt Status) : JsError + string :=
  match v with
  | js_obj st => inr (Status_toString st)
  | js_undefined => inl (TypeError_absent "undefined (reading 'toString')")
  | js_null => inl (TypeError_absent "null (reading 'toString')")
  end.

(** ** Observable events *)

Definition PromiseId := nat.

Inductive LibCall : Type :=
| Init
| OpenModal
| DisconnectAll
| FreezeWithSigner (tx : Transaction) (signer : option Signer)
| ExecuteWithSigner (tx : Transaction) (signer : option Signer)
| GetReceiptWithSigner (r : TransactionResponse) (signer : option Signer).

Inductive LogArg : Type :=
| LStr (s : string)
| LErr (e : JsError)
| LVal (v : Value)
| LStatus (st : JsOpt Status).

Inductive Event : Type :=
| Called (c : LibCall) (p : PromiseId)
| Built (tx : Transaction)
| ConsoleLog (args : list LogArg)
| ConsoleError (args : list LogArg)
| UnhandledRejection (e : JsError).

(** ** The page *)

Inductive Button : Type := disconnectButton | createTopicButton | submitMessageButton.

(** The elements the script looks up by id; [None] (or [false]) when the
    page has no such element.  Text elements carry their content. *)
Record Dom := {
  el_accountId : option string;
  el_disconnectButton : option string;
  el_topicIdDisplay : option string;
  el_messageStatus : option string;
  el_messageInput : option string;
  el_createTopicButton : bool;
  el_submitMessageButton : bool
}.


(** ** Program state *)

Record State := {
  accountId : string;
  isConnected : bool;
  topicId : string;
  walletConnectInitPromise : option PromiseId;
  dom : Dom;
  signers : list Signer;
  listeners : list Button;
  next_promise : PromiseId;
  trace : list Event
}.

Definition set_accountId (v : string) (s : State) : State :=
  {| accountId := v; isConnected := isConnected s; topicId := topicId s;
     walletConnectInitPromise := walletConnectInitPromise s; dom := dom s;
     signers := signers s; listeners := listeners s;
     next_promise := next_promise s; trace := trace s |}.

Definition set_isConnected (v : bool) (s : State) : State :=
  {| accountId := accountId s; isConnected := v; topicId := topicId s;
     walletConnectInitPromise := walletConnectInitPromise s; dom := dom s;
     signers := signers s; listeners := listeners s;
     next_promise := next_promise s; trace := trace s |}.

Definition set_topicId (v : string) (s : State) : State :=
  {| accountId := accountId s; isConnected := isConnected s; topicId := v;
     walletConnectInitPromise := walletConnectInitPromise s; dom := dom s;
     signers := signers s; listeners := listeners s;
     next_promise := next_promise s; trace := trace s |}.

Definition set_walletConnectInitPromise (v : option PromiseId) (s : State) : State :=
  {| accountId := accountId s; isConnected := isConnected s; topicId := topicId s;
     walletConnectInitPromise := v; dom := dom s;
     signers := signers s; listeners := listeners s;
     next_promise := next_promise s; trace := trace s |}.

Definition set_dom (d : Dom) (s : State) : State :=
  {| accountId := accountId s; isConnected := isConnected s; topicId := topicId s;
     walletConnectInitPromise := walletConnectInitPromise s; dom := d;
     signers := signers s; listeners := listeners s;
     next_promise := next_promise s; trace := trace s |}.

Definition set_signers (l : list Signer) (s : State) : State :=
  {| accountId := accountId s; isConnected := isConnected s; topicId := topicId s;
     walletConnectInitPromise := walletConnectInitPromise s; dom := dom s;
     signers := l; listeners := listeners s;
     next_promise := next_promise s; trace := trace s |}.

Definition add_listener (b : Button) (s : State) : State :=
  {| accountId := accountId s; isConnected := isConnected s; topicId := topicId s;
     walletConnectInitPromise := walletConnectInitPromise s; dom := dom s;
     signers := signers s; listeners := listeners s ++ [b];
     next_promise := next_promise s; trace := trace s |}.

(** Appends an event to the trace. *)
Definition emit (e : Event) (s : State) : State :=
  {| accountId := accountId s; isConnected := isConnected s; topicId := topicId s;
     walletConnectInitPromise := walletConnectInitPromise s; dom := dom s;
     signers := signers s; listeners := listeners s;
     next_promise := next_promise s; trace := trace s ++ [e] |}.

(** Allocates the promise a library call returns. *)
Definition alloc_promise (s : State) : State :=
  {| accountId := accountId s; isConnected := isConnected s; topicId := topicId s;
     walletConnectInitPromise := walletConnectInitPromise s; dom := dom s;
     signers := signers s; listeners := listeners s;
     next_promise := S (next_promise s); trace := trace s |}.

(** ** Async computations *)

#[local] Set Warnings "-register-all".

Inductive Step (A : Type) : Type :=
| Return (a : A)
| Raise (e : JsError)
| Yield (p : PromiseId) (k : Outcome -> State -> State * Step A).
Arguments Return {A} a.
Arguments Raise {A} e.
Arguments Yield {A} p k.

Definition Async (A : Type) : Type := State -> State * Step A.

Definition ret {A} (a : A) : Async A := fun s => (s, Return a).
Definition throw {A} (e : JsError) : Async A := fun s => (s, Raise e).

Fixpoint bind_step {A B} (r : Step A) (f : A -> Async B) : Async B :=
  fun s =>
    match r with
    | Return a => f a s
    | Raise e => (s, Raise e)
    | Yield p k =>
        (s, Yield p (fun o s' => let (s'', r') := k o s' in bind_step r' f s''))
    end.

Definition bind {A B} (m : Async A) (f : A -> Async B) : Async B :=
  fun s => let (s', r) := m s in bind_step r f s'.

(** [try { m } catch (err) { h err }] *)
Fixpoint catch_step {A} (r : Step A) (h : JsError -> Async A) : Async A :=
  fun s =>
    match r with
    | Return a => (s, Return a)
    | Raise e => h e s
    | Yield p k =>
        (s, Yield p (fun o s' => let (s'', r') := k o s' in catch_step r' h s''))
    end.

Definition try_catch {A} (m : Async A) (h : JsError -> Async A) : Async A :=
  fun s => let (s', r) := m s in catch_step r h s'.

Definition gets {A} (f : State -> A) : Async A := fun s => (s, Return (f s)).
Definition modify (f : State -> State) : Async unit := fun s => (f s, Return tt).

(** [await p]: suspend until promise [p] settles; a rejection is thrown. *)
Definition await (p : PromiseId) : Async Value :=
  fun s => (s, Yield p (fun o s' =>
                         match o with
                         | Fulfilled v => (s', Return v)
                         | Rejected e => (s', Raise e)
                         end)).

(** A value or a synchronous exception. *)
Definition lift {A} (r : JsError + A) : Async A :=
  match r with
  | inl e => throw e
  | inr a => ret a
  end.

Declare Scope async_scope.
Delimit Scope async_scope with async.
Notation "x <- m ;; k" := (bind m (fun x => k))
  (at level 61, m at next level, right associativity) : async_scope.
Notation "m ;; k" := (bind m (fun _ => k))
  (at level 61, right associativity) : async_scope.
Open Scope async_scope.

(** A call into a library that returns a promise.  The connector's and the
    SDK's methods the script calls ([init], [openModal], [disconnectAll],
    [freezeWithSigner], [executeWithSigner], [getReceiptWithSigner]) are
    [async]: a failure is a rejected promise, never a synchronous throw. *)
Definition lib_call (c : LibCall) : Async PromiseId :=
  p <- gets next_promise ;;
  modify alloc_promise ;;
  modify (emit (Called c p)) ;;
  ret p.

Definition console_log (args : list LogArg) : Async unit := modify (emit (ConsoleLog args)).
Definition console_error (args : list LogArg) : Async unit := modify (emit (ConsoleError args)).

(** ** DOM helpers *)

Definition render_account (value : string) (d : Dom) : Dom :=
  match el_accountId d, el_disconnectButton d with
  | Some _, Some _ =>
      {| el_accountId := Some value;
         el_disconnectButton :=
           Some (if truthy_string value && negb (value =? "No account connected")
                 then "Connected - Click to Disconnect"
                 else "Connect to WalletConnect");
         el_topicIdDisplay := el_topicIdDisplay d;
         el_messageStatus := el_messageStatus d;
         el_messageInput := el_messageInput d;
         el_createTopicButton := el_createTopicButton d;
         el_submitMessageButton := el_submitMessageButton d |}
  | _, _ => d
  end.

Definition render_topic (html : string) (d : Dom) : Dom :=
  match el_topicIdDisplay d with
  | Some _ =>
      {| el_accountId := el_accountId d;
         el_disconnectButton := el_disconnectButton d;
         el_topicIdDisplay := Some html;
         el_messageStatus := el_messageStatus d;
         el_messageInput := el_messageInput d;
         el_createTopicButton := el_createTopicButton d;
         el_submitMessageButton := el_submitMessageButton d |}
  | None => d
  end.

Definition render_status (html : string) (d : Dom) : Dom :=
  match el_messageStatus d with
  | Some _ =>
      {| el_accountId := el_accountId d;
         el_disconnectButton := el_disconnectButton d;
         el_topicIdDisplay := el_topicIdDisplay d;
         el_messageStatus := Some html;
         el_messageInput := el_messageInput d;
         el_createTopicButton := el_createTopicButton d;
         el_submitMessageButton := el_submitMessageButton d |}
  | None => d
  end.

Definition updateAccountIdDisplay (value : string) : Async unit :=
  modify (fun s => set_dom (render_account value (dom s)) s).

Definition updateTopicIdDisplay (html : string) : Async unit :=
  modify (fun s => set_dom (render_topic html (dom s)) s).

Definition updateMessageStatus (html : string) : Async unit :=
  modify (fun s => set_dom (render_status html (dom s)) s).

(** ** Wallet connection *)

Definition initializeWalletConnect : Async unit :=
  stored <- gets walletConnectInitPromise ;;
  match stored with
  | None =>
      p <- lib_call Init ;;
      modify (set_walletConnectInitPromise (Some p))
  | Some _ => ret tt
  end ;;
  stored <- gets walletConnectInitPromise ;;
  match stored with
  | Some p => _ <- await p ;; ret tt
  | None => ret tt
  end.

(** [dappConnector.signers[0]?.getAccountId()?.toString()] *)
Definition first_account (l : list Signer) : option string :=
  match l with
  | [] => None
  | sg :: _ =>
      match getAccountId sg with
      | js_obj a => Some (AccountId_toString a)
      | _ => None
      end
  end.

Definition truthy_account (account : option string) : bool :=
  match account with
  | Some a => truthy_string a
  | None => false
  end.

Definition syncWalletconnectState : Async unit :=
  account <- gets (fun s => first_account (signers s)) ;;
  match account with
  | Some a =>
      if truthy_string a then
        modify (set_accountId a) ;;
        modify (set_isConnected true) ;;
        current <- gets accountId ;;
        updateAccountIdDisplay current ;;
        console_log [LStr "WalletConnect: Connected as"; LStr current]
      else
        modify (set_accountId EmptyString) ;;
        modify (set_isConnected false) ;;
        updateAccountIdDisplay "No account connected" ;;
        console_log [LStr "WalletConnect: No account found"]
  | None =>
      modify (set_accountId EmptyString) ;;
      modify (set_isConnected false) ;;
      updateAccountIdDisplay "No account connected" ;;
      console_log [LStr "WalletConnect: No account found"]
  end.

(** The [try] block and the [catch] clause of [openWalletConnectModal]. *)
Definition openWalletConnectModal_try : Async unit :=
  initializeWalletConnect ;;
  connected <- gets isConnected ;;
  if negb connected then
    p <- lib_call OpenModal ;;
    _ <- await p ;;
    syncWalletconnectState
  else
    console_log [LStr "Already connected."].

Definition openWalletConnectModal_catch (error : JsError) : Async unit :=
  console_error [LStr "Failed to open WalletConnect modal"; LErr error].

Definition openWalletConnectModal : Async unit :=
  try_catch openWalletConnectModal_try openWalletConnectModal_catch.

(** The [try] block and the [catch] clause of [disconnectWallet]. *)
Definition disconnectWallet_try : Async unit :=
  p <- lib_call DisconnectAll ;;
  _ <- await p ;;
  modify (set_isConnected false) ;;
  modify (set_accountId EmptyString) ;;
  updateAccountIdDisplay "No account connected" ;;
  console_log [LStr "Disconnected from wallet"].

Definition disconnectWallet_catch (error : JsError) : Async unit :=
  console_error [LStr "Failed to disconnect wallet"; LErr error].

Definition disconnectWallet : Async unit :=
  connected <- gets isConnected ;;
  if connected then
    try_catch disconnectWallet_try disconnectWallet_catch
  else
    console_log [LStr "No active session to disconnect from."].

(** ** Topic creation *)

Definition hashscan_link (topic : string) : string :=
  "https://hashscan.io/testnet/topic/" ++ topic.

Definition hashscan_anchor (link : string) : string :=
  "        <a href=" ++ dq ++ link ++ dq ++ " target=" ++ dq ++ "_blank" ++ dq
  ++ " class=" ++ dq ++ "hashscan-link" ++ dq ++ ">" ++ nl
  ++ "          View on HashScan" ++ nl
  ++ "        </a>" ++ nl
  ++ "      ".

Definition topic_created_html (topic : string) : string :=
  nl ++ "        " ++ topic ++ nl
  ++ "        <br/><br/>" ++ nl
  ++ hashscan_anchor (hashscan_link topic).

(** The [try] block and the [catch] clause of [handleTopicCreation]. *)
Definition handleTopicCreation_try : Async unit :=
  signer <- gets (fun s => hd_error (signers s)) ;;
  let createTx := TopicCreateTransaction "Hello from Vanilla JS!" in
  modify (emit (Built createTx)) ;;
  p <- lib_call (FreezeWithSigner createTx signer) ;;
  _ <- await p ;;
  p <- lib_call (ExecuteWithSigner createTx signer) ;;
  createTxResult <- await p ;;
  console_log [LStr "Topic creation transaction result:"; LVal createTxResult] ;;
  response <- lift (as_response createTxResult) ;;
  p <- lib_call (GetReceiptWithSigner response signer) ;;
  receipt <- await p ;;
  console_log [LStr "Receipt for topic creation:"; LVal receipt] ;;
  created <- lift (get_topicId receipt) ;;
  match created with
  | js_obj t =>
      modify (set_topicId (TopicId_toString t)) ;;
      topic <- gets topicId ;;
      console_log [LStr "Topic created with ID:"; LStr topic] ;;
      updateTopicIdDisplay (topic_created_html topic)
  | _ =>
      console_error [LStr "No topicId in receipt:"; LVal receipt] ;;
      updateTopicIdDisplay "Topic creation failed (no topicId)"
  end.

Definition handleTopicCreation_catch (err : JsError) : Async unit :=
  console_error [LStr "Topic creation error:"; LErr err] ;;
  updateTopicIdDisplay ("Topic creation error: " ++ message err).

Definition handleTopicCreation : Async unit :=
  connected <- gets isConnected ;;
  if negb connected then
    console_error [LStr "Connect wallet first!"] ;;
    updateTopicIdDisplay "Connect a wallet first!"
  else
    try_catch handleTopicCreation_try handleTopicCreation_catch.

(** ** Message submission *)

Definition message_submitted_html (topic : string) : string :=
  nl ++ "        Message submitted to topic " ++ topic ++ " successfully!" ++ nl
  ++ "        <br/><br/>" ++ nl
  ++ hashscan_anchor (hashscan_link topic).

(** [receipt.status && receipt.status.toString() === "SUCCESS"] *)
Definition status_is_success (st : JsOpt Status) : JsError + bool :=
  if truthy st then
    match call_toString st with
    | inr text => inr (text =? "SUCCESS")
    | inl e => inl e
    end
  else inr false.

Section Handlers.

(** The SDK's parser [TopicId.fromString], which throws on a malformed
    identifier, is outside the repository: it is a parameter. *)
Variable TopicId_fromString : string -> JsError + TopicId.

(** The [try] block and the [catch] clause of
    [handleTopicMessageSubmission]. *)
Definition handleTopicMessageSubmission_try : Async unit :=
  signer <- gets (fun s => hd_error (signers s)) ;;
  messageInput <- gets (fun s => el_messageInput (dom s)) ;;
  match messageInput with
  | Some (String c rest) =>
      let msg := String c rest in
      topic <- gets topicId ;;
      parsed <- lift (TopicId_fromString topic) ;;
      let submitTx := TopicMessageSubmitTransaction parsed msg in
      modify (emit (Built submitTx)) ;;
      p <- lib_call (FreezeWithSigner submitTx signer) ;;
      _ <- await p ;;
      p <- lib_call (ExecuteWithSigner submitTx signer) ;;
      submitTxResult <- await p ;;
      console_log [LStr "Message submission transaction result:";
                   LVal submitTxResult] ;;
      response <- lift (as_response submitTxResult) ;;
      p <- lib_call (GetReceiptWithSigner response signer) ;;
      receipt <- await p ;;
      console_log [LStr "Receipt for message submission:"; LVal receipt] ;;
      st <- lift (get_status receipt) ;;
      ok <- lift (status_is_success st) ;;
      topic <- gets topicId ;;
      if (ok : bool) then
        console_log [LStr ("Message " ++ dq ++ msg ++ dq
                           ++ " submitted to topic " ++ topic ++ ".")] ;;
        updateMessageStatus (message_submitted_html topic)
      else
        console_error [LStr "Message submission failed, status:"; LStatus st] ;;
        updateMessageStatus
          ("Message submission failed: " ++ template Status_toString st)
  | _ =>
      console_error [LStr "No message provided."] ;;
      updateMessageStatus "Please enter a message first."
  end.

Definition handleTopicMessageSubmission_catch (err : JsError) : Async unit :=
  console_error [LStr "Message submit error:"; LErr err] ;;
  updateMessageStatus ("Message submit error: " ++ message err).

Definition handleTopicMessageSubmission : Async unit :=
  connected <- gets isConnected ;;
  if negb connected then
    console_error [LStr "Connect wallet first!"] ;;
    updateMessageStatus "Connect a wallet first!"
  else
    topic <- gets topicId ;;
    if negb (truthy_string topic) then
      console_error [LStr "No topicId found—create a topic first!"] ;;
      updateMessageStatus "No topic to submit to—create a topic first!"
    else
      try_catch handleTopicMessageSubmission_try handleTopicMessageSubmission_catch.

(** ** Page load and click listeners *)

(** The click listener of the connect/disconnect button. *)
Definition onDisconnectButtonClick : Async unit :=
  connected <- gets isConnected ;;
  if connected then disconnectWallet else openWalletConnectModal.

Definition listener_of (b : Button) : Async unit :=
  match b with
  | disconnectButton => onDisconnectButtonClick
  | createTopicButton => handleTopicCreation
  | submitMessageButton => handleTopicMessageSubmission
  end.

Definition has_button (b : Button) (d : Dom) : bool :=
  match b with
  | disconnectButton =>
      match el_disconnectButton d with Some _ => true | None => false end
  | createTopicButton => el_createTopicButton d
  | submitMessageButton => el_submitMessageButton d
  end.

(** [if (button) button.addEventListener("click", ...)] *)
Definition addClickListener (b : Button) : Async unit :=
  present <- gets (fun s => has_button b (dom s)) ;;
  if (present : bool) then modify (add_listener b) else ret tt.

(** The [DOMContentLoaded] listener. *)
Definition onDOMContentLoaded : Async unit :=
  initializeWalletConnect ;;
  syncWalletconnectState ;;
  addClickListener disconnectButton ;;
  addClickListener createTopicButton ;;
  addClickListener submitMessageButton.

(** ** The event loop *)

Definition Continuation : Type := Outcome -> Async unit.

Record Runtime := {
  rt_state : State;
  rt_pool : list (PromiseId * Continuation);
  rt_settled : list (PromiseId * Outcome);
  rt_loaded : bool
}.

Fixpoint settled_outcome (l : list (PromiseId * Outcome)) (p : PromiseId)
  : option Outcome :=
  match l with
  | [] => None
  | (q, o) :: rest => if Nat.eqb p q then Some o else settled_outcome rest p
  end.

(** Files the result of running a listener or a continuation up to its next
    suspension: a suspended computation joins the pool, a rejection nobody
    handles is reported. *)
Definition conclude (c : State * Step unit) (pool : list (PromiseId * Continuation))
    (settled : list (PromiseId * Outcome)) (loaded : bool) : Runtime :=
  match snd c with
  | Return _ =>
      {| rt_state := fst c; rt_pool := pool; rt_settled := settled; rt_loaded := loaded |}
  | Raise e =>
      {| rt_state := emit (UnhandledRejection e) (fst c); rt_pool := pool;
         rt_settled := settled; rt_loaded := loaded |}
  | Yield p k =>
      {| rt_state := fst c; rt_pool := pool ++ [(p, k)];
         rt_settled := settled; rt_loaded := loaded |}
  end.

(** The user types into the message input. *)
Definition type_message (v : string) (d : Dom) : Dom :=
  match el_messageInput d with
  | Some _ =>
      {| el_accountId := el_accountId d;
         el_disconnectButton := el_disconnectButton d;
         el_topicIdDisplay := el_topicIdDisplay d;
         el_messageStatus := el_messageStatus d;
         el_messageInput := Some v;
         el_createTopicButton := el_createTopicButton d;
         el_submitMessageButton := el_submitMessageButton d |}
  | None => d
  end.

Inductive step : Runtime -> Runtime -> Prop :=
| step_load rt :
    rt_loaded rt = false ->
    step rt (conclude (onDOMContentLoaded (rt_state rt))
                      (rt_pool rt) (rt_settled rt) true)
| step_click rt b :
    In b (listeners (rt_state rt)) ->
    step rt (conclude (listener_of b (rt_state rt))
                      (rt_pool rt) (rt_settled rt) (rt_loaded rt))
| step_settle rt p o :
    p < next_promise (rt_state rt) ->
    settled_outcome (rt_settled rt) p = None ->
    step rt {| rt_state := rt_state rt; rt_pool := rt_pool rt;
               rt_settled := (p, o) :: rt_settled rt; rt_loaded := rt_loaded rt |}
| step_resume rt before after p k o :
    rt_pool rt = (before ++ (p, k) :: after)%list ->
    settled_outcome (rt_settled rt) p = Some o ->
    step rt (conclude (k o (rt_state rt))
                      (before ++ after) (rt_settled rt) (rt_loaded rt))
| step_signers rt l :
    step rt {| rt_state := set_signers l (rt_state rt); rt_pool := rt_pool rt;
               rt_settled := rt_settled rt; rt_loaded := rt_loaded rt |}
| step_input rt v :
    step rt {| rt_state := set_dom (type_message v (dom (rt_state rt))) (rt_state rt);
               rt_pool := rt_pool rt;
               rt_settled := rt_settled rt; rt_loaded := rt_loaded rt |}.

Inductive steps : Runtime -> Runtime -> Prop :=
| steps_refl rt : steps rt rt
| steps_snoc rt1 rt2 rt3 : steps rt1 rt2 -> step rt2 rt3 -> steps rt1 rt3.

End Handlers.

(** The state when the script is loaded into page [d] (lines 15-17, 49). *)
Definition initial_state (d : Dom) : State :=
  {| accountId := EmptyString; isConnected := false; topicId := EmptyString;
     walletConnectInitPromise := None; dom := d; signers := [];
     listeners := []; next_promise := 0; trace := [] |}.

Definition initial_runtime (d : Dom) : Runtime :=
  {| rt_state := initial_state d; rt_pool := []; rt_settled := []; rt_loaded := false |}.

Definition reachable (fromString : string -> JsError + TopicId) (rt : Runtime) : Prop :=
  exists d, steps fromString (initial_runtime d) rt.

(** ** An executable scheduler *)

(** What can happen next on the page; [perform] carries it out when the
    event loop allows it. *)
Inductive Action : Type :=
| ALoad
| AClick (b : Button)
| ASettle (p : PromiseId) (o : Outcome)
| AResume (p : PromiseId)
| ASigners (l : list Signer)
| AInput (v : string).

Definition Button_eqb (a b : Button) : bool :=
  match a, b with
  | disconnectButton, disconnectButton => true
  | createTopicButton, createTopicButton => true
  | submitMessageButton, submitMessageButton => true
  | _, _ => false
  end.

(** The first continuation of the pool that awaits [p], and the pool
    before and after it. *)
Fixpoint take_task (p : PromiseId) (pool : list (PromiseId * Continuation))
  : option (list (PromiseId * Continuation) * Continuation
            * list (PromiseId * Continuation)) :=
  match pool with
  | [] => None
  | (q, k) :: rest =>
      if Nat.eqb p q then Some ([], k, rest)
      else
        match take_task p rest with
        | Some (before, k', after) => Some ((q, k) :: before, k', after)
        | None => None
        end
  end.

Definition perform (fromString : string -> JsError + TopicId)
    (rt : Runtime) (a : Action) : option Runtime :=
  match a with
  | ALoad =>
      if rt_loaded rt then None
      else Some (conclude (onDOMContentLoaded (rt_state rt))
                          (rt_pool rt) (rt_settled rt) true)
  | AClick b =>
      if existsb (Button_eqb b) (listeners (rt_state rt))
      then Some (conclude (listener_of fromString b (rt_state rt))
                          (rt_pool rt) (rt_settled rt) (rt_loaded rt))
      else None
  | ASettle p o =>
      if (p <? next_promise (rt_state rt))%nat then
        match settled_outcome (rt_settled rt) p with
        | None =>
            Some {| rt_state := rt_state rt; rt_pool := rt_pool rt;
                    rt_settled := (p, o) :: rt_settled rt;
                    rt_loaded := rt_loaded rt |}
        | Some _ => None
        end
      else None
  | AResume p =>
      match take_task p (rt_pool rt), settled_outcome (rt_settled rt) p with
      | Some (before, k, after), Some o =>
          Some (conclude (k o (rt_state rt)) (before ++ after)
                         (rt_settled rt) (rt_loaded rt))
      | _, _ => None
      end
  | ASigners l =>
      Some {| rt_state := set_signers l (rt_state rt); rt_pool := rt_pool rt;
              rt_settled := rt_settled rt; rt_loaded := rt_loaded rt |}
  | AInput v =>
      Some {| rt_state := set_dom (type_message v (dom (rt_state rt))) (rt_state rt);
              rt_pool := rt_pool rt;
              rt_settled := rt_settled rt; rt_loaded := rt_loaded rt |}
  end.

Fixpoint perform_all (fromString : string -> JsError + TopicId)
    (rt : Runtime) (actions : list Action) : option Runtime :=
  match actions with
  | [] => Some rt
  | a :: rest =>
      match perform fromString rt a with
      | Some rt' => perform_all fromString rt' rest
      | None => None
      end
  end.

(** The page after [actions], from the initial runtime of page [d]; the
    initial runtime itself if some action is not allowed. *)
Definition page_after (fromString : string -> JsError + TopicId) (d : Dom)
    (actions : list Action) : Runtime :=
  match perform_all fromString (initial_runtime d) actions with
  | Some rt => rt
  | None => initial_runtime d
  end.

(** ** A page, a parser and states to run the handlers on *)

Fixpoint parse_digits (s : string) (acc : N) : option N :=
  match s with
  | EmptyString => Some acc
  | String c rest =>
      let n := nat_of_ascii c in
      if ((48 <=? n)%nat && (n <=? 57)%nat)%bool
      then parse_digits rest (acc * 10 + N.of_nat (n - 48))%N
      else None
  end.

Definition parse_number (s : string) : option N :=
  match s with
  | EmptyString => None
  | _ => parse_digits s 0%N
  end.

Fixpoint split_dots (s current : string) : list string :=
  match s with
  | EmptyString => [current]
  | String c rest =>
      if Ascii.eqb c "."%char
      then current :: split_dots rest EmptyString
      else split_dots rest (current ++ String c EmptyString)
  end.

(** A parser of [shard.realm.num] to stand for the SDK's
    [TopicId.fromString] where a concrete one is needed. *)
Definition parse_TopicId (s : string) : JsError + TopicId :=
  match map parse_number (split_dots s EmptyString) with
  | [Some a; Some b; Some c] =>
      inr {| topic_shard := a; topic_realm := b; topic_num := c |}
  | _ => inl {| message := "failed to parse entity id: " ++ s |}
  end.

Definition demo_page : Dom :=
  {| el_accountId := Some "0.0.5";
     el_disconnectButton := Some "Connected - Click to Disconnect";
     el_topicIdDisplay := Some EmptyString;
     el_messageStatus := Some EmptyString;
     el_messageInput := Some "hello";
     el_createTopicButton := true;
     el_submitMessageButton := true |}.

Definition demo_signer : Signer :=
  {| getAccountId :=
       js_obj {| account_shard := 0%N; account_realm := 0%N; account_num := 5%N |} |}.

(** Connected as [0.0.5], topic [0.0.1234] created, a message typed. *)
Definition demo_connected : State :=
  {| accountId := "0.0.5"; isConnected := true; topicId := "0.0.1234";
     walletConnectInitPromise := Some 0; dom := demo_page;
     signers := [demo_signer];
     listeners := [disconnectButton; createTopicButton; submitMessageButton];
     next_promise := 1; trace := [Called Init 0] |}.

(** Loaded, initialized, but no wallet connected and no topic yet. *)
Definition demo_disconnected : State :=
  {| accountId := EmptyString; isConnected := false; topicId := EmptyString;
     walletConnectInitPromise := Some 0; dom := demo_page;
     signers := [];
     listeners := [disconnectButton; createTopicButton; submitMessageButton];
     next_promise := 1; trace := [Called Init 0] |}.

Definition boom : JsError := {| message := "boom" |}.

Definition demo_topic : TopicId :=
  {| topic_shard := 0%N; topic_realm := 0%N; topic_num := 1234%N |}.

Definition demo_response : TransactionResponse := {| response_id := 7 |}.

Definition demo_receipt : TransactionReceipt :=
  {| receipt_status := js_obj {| Status_toString := "SUCCESS" |};
     receipt_topicId := js_obj demo_topic |}.

(** The page loads while the wallet restores a session; the user then
    creates a topic. *)
Definition demo_load : list Action :=
  [ALoad; ASigners [demo_signer]; ASettle 0 (Fulfilled VUndefined); AResume 0].

Definition demo_create : list Action :=
  [AClick createTopicButton;
   ASettle 1 (Fulfilled VUndefined); AResume 1;
   ASettle 2 (Fulfilled (VResponse demo_response)); AResume 2;
   ASettle 3 (Fulfilled (VReceipt demo_receipt)); AResume 3].

(** A failed second creation, then a disconnection. *)
Definition demo_later : list Action :=
  [AClick createTopicButton; ASettle 4 (Rejected boom); AResume 4;
   AClick disconnectButton; ASettle 5 (Fulfilled VUndefined); AResume 5].

(** The page loads without a session; the user clicks connect twice before
    either click is served. *)
Definition demo_connect_twice : list Action :=
  [ALoad; ASettle 0 (Fulfilled VUndefined); AResume 0;
   AClick disconnectButton; AClick disconnectButton; AResume 0; AResume 0].

(** ** Runs of one handler *)

(** A script drives one computation through its suspensions: each entry
    gives what the rest of the page did to the state while the computation
    was suspended, and the outcome of the promise it awaited.  A computation
    that has finished ignores what is left of the script. *)
Definition Script : Type := list ((State -> State) * Outcome).

Fixpoint drive {A} (c : State * Step A) (script : Script) : State * Step A :=
  match script with
  | [] => c
  | (f, o) :: rest =>
      match snd c with
      | Yield _ k => drive (k o (f (fst c))) rest
      | _ => c
      end
  end.

(** The script of a run nothing else interferes with. *)
Definition alone (outcomes : list Outcome) : Script :=
  map (fun o => (fun s : State => s, o)) outcomes.

(** The state before and after each atomic segment the computation
    executes after its first one, when driven by [script]. *)
Fixpoint later_segments {A} (c : State * Step A) (script : Script)
  : list (State * State) :=
  match script with
  | [] => []
  | (f, o) :: rest =>
      match snd c with
      | Yield _ k =>
          let c' := k o (f (fst c)) in
          (f (fst c), fst c') :: later_segments c' rest
      | _ => []
      end
  end.

Definition segments {A} (m : Async A) (s : State) (script : Script)
  : list (State * State) :=
  (s, fst (m s)) :: later_segments (m s) script.

(** ** A logic of atomic segments *)

(** [wp R Q E s0 c]: the segment that started in state [s0] and has reached
    configuration [c] ends in a state related to [s0] by [R] if it suspends,
    satisfies [Q] if it returns and [E] if it throws; and so does every
    segment that follows a suspension, from whatever state it is resumed in. *)
Inductive wp (R : State -> State -> Prop) {A : Type}
    (Q : State -> A -> State -> Prop) (E : State -> JsError -> State -> Prop)
  : State -> State * Step A -> Prop :=
| wp_return s0 s a : Q s0 a s -> wp R Q E s0 (s, Return a)
| wp_raise s0 s e : E s0 e s -> wp R Q E s0 (s, Raise e)
| wp_yield s0 s p k :
    R s0 s ->
    (forall o s1, wp R Q E s1 (k o s1)) ->
    wp R Q E s0 (s, Yield p k).

(** A listener respects [R] when each of its segments does, the report of
    an unhandled rejection included. *)
Definition respects (R : State -> State -> Prop) (c0 : State) (c : State * Step unit)
  : Prop :=
  wp R (fun s0 _ s => R s0 s)
       (fun s0 e s => R s0 (emit (UnhandledRejection e) s)) c0 c.

Definition Respects (R : State -> State -> Prop) (m : Async unit) : Prop :=
  forall s, respects R s (m s).

(** Every suspended continuation of the pool respects [R]. *)
Definition pool_ok (R : State -> State -> Prop)
    (pool : list (PromiseId * Continuation)) : Prop :=
  Forall (fun pk => forall o s, respects R s (snd pk o s)) pool.

(** A computation that never lets an exception escape. *)
Definition never_throws (m : Async unit) : Prop :=
  forall s, wp (fun _ _ => True) (fun _ _ _ => True) (fun _ _ _ => False) s (m s).

(** ** Properties of states *)

(** The session invariant: connected exactly when an account is recorded. *)
Definition session_consistent (s : State) : Prop :=
  isConnected s = true <-> accountId s <> EmptyString.

Definition has_topic (s : State) : Prop := topicId s <> EmptyString.

Definition is_init_call (e : Event) : bool :=
  match e with
  | Called Init _ => true
  | _ => false
  end.

(** How many times [dappConnector.init()] has been invoked. *)
Definition init_calls (s : State) : nat :=
  length (filter is_init_call (trace s)).

Definition is_sdk_event (e : Event) : bool :=
  match e with
  | Built _ => true
  | Called (FreezeWithSigner _ _) _ => true
  | Called (ExecuteWithSigner _ _) _ => true
  | Called (GetReceiptWithSigner _ _) _ => true
  | _ => false
  end.

(** [keeps P]: a segment that starts where [P] holds ends where [P] holds. *)
Definition keeps (P : State -> Prop) (s s' : State) : Prop := P s -> P s'.

(** The session variables, and all three process-wide variables, are the
    same in two states. *)
Definition same_session (s s' : State) : Prop :=
  accountId s' = accountId s /\ isConnected s' = isConnected s.

Definition same_globals (s s' : State) : Prop :=
  accountId s' = accountId s /\ isConnected s' = isConnected s
  /\ topicId s' = topicId s.

(** At most one initialization, and none before a promise is stored. *)
Definition init_once (s : State) : Prop :=
  match walletConnectInitPromise s with
  | None => init_calls s = 0
  | Some _ => init_calls s <= 1
  end.

(** The ledger-SDK operations performed so far. *)
Definition sdk_events (s : State) : list Event := filter is_sdk_event (trace s).

(** ** Properties of the page *)

Definition present (e : option string) : bool :=
  match e with
  | Some _ => true
  | None => false
  end.

(** Two pages have the same elements, whatever their contents. *)
Definition same_elements (d d' : Dom) : Prop :=
  present (el_accountId d') = present (el_accountId d)
  /\ present (el_disconnectButton d') = present (el_disconnectButton d)
  /\ present (el_topicIdDisplay d') = present (el_topicIdDisplay d)
  /\ present (el_messageStatus d') = present (el_messageStatus d)
  /\ present (el_messageInput d') = present (el_messageInput d)
  /\ el_createTopicButton d' = el_createTopicButton d
  /\ el_submitMessageButton d' = el_submitMessageButton d.

Definition same_page (s s' : State) : Prop := same_elements (dom s) (dom s').

(** The account display and the label of the connect button agree with the
    session variables (on a page that has both elements). *)
Definition display_synced (s : State) : Prop :=
  match el_accountId (dom s), el_disconnectButton (dom s) with
  | Some text, Some label =>
      if isConnected s
      then text = accountId s /\ label = "Connected - Click to Disconnect"
      else text = "No account connected" /\ label = "Connect to WalletConnect"
  | _, _ => True
  end.

(** Before any click listener is registered the display is the page's
    static content; afterwards it is kept in step with the session. *)
Definition display_invariant (s : State) : Prop :=
  listeners s = [] \/ display_synced s.

(** Each identifier variable is empty or the string form of an identifier. *)
Definition well_formed_ids (s : State) : Prop :=
  (accountId s = EmptyString \/ exists a, accountId s = AccountId_toString a)
  /\ (topicId s = EmptyString \/ exists t, topicId s = TopicId_toString t).

Definition same_topic (s s' : State) : Prop := topicId s' = topicId s.

Definition same_listeners (s s' : State) : Prop := listeners s' = listeners s.

(** What the [catch] clauses of the two transaction handlers leave behind. *)
Definition creation_error_state (e : JsError) (s : State) : State :=
  set_dom (render_topic ("Topic creation error: " ++ message e) (dom s))
    (emit (ConsoleError [LStr "Topic creation error:"; LErr e]) s).

Definition submit_error_state (e : JsError) (s : State) : State :=
  set_dom (render_status ("Message submit error: " ++ message e) (dom s))
    (emit (ConsoleError [LStr "Message submit error:"; LErr e]) s).

(** The buttons of page [d], in the order the page-load handler registers
    their listeners. *)
Definition buttons_of (d : Dom) : list Button :=
  filter (fun b => has_button b d)
         [disconnectButton; createTopicButton; submitMessageButton].

(** A continuation that, resumed where no listener is registered, finishes
    at once and has then registered nothing or one listener per button. *)
Definition registers_once (k : Continuation) : Prop :=
  forall o s,
    listeners s = [] ->
    match snd (k o s) with
    | Yield _ _ => False
    | _ => True
    end
    /\ (listeners (fst (k o s)) = []
        \/ listeners (fst (k o s)) = buttons_of (dom s)).

(** The three phases of page [d]: not loaded; loading, with the page-load
    handler the only suspended computation; loaded. *)
Definition page_phase (d : Dom) (rt : Runtime) : Prop :=
  (rt_loaded rt = false /\ rt_pool rt = [] /\ listeners (rt_state rt) = [])
  \/ (rt_loaded rt = true /\ listeners (rt_state rt) = []
      /\ exists p k, rt_pool rt = [(p, k)] /\ registers_once k)
  \/ (rt_loaded rt = true
      /\ (listeners (rt_state rt) = [] \/ listeners (rt_state rt) = buttons_of d)
      /\ pool_ok same_listeners (rt_pool rt)).

(** * Proofs *)

(** ** Rules of the segment logic *)

Section WpRules.

Variable R : State -> State -> Prop.

Context {A : Type}.
Variable Q : State -> A -> State -> Prop.
Variable E : State -> JsError -> State -> Prop.

Lemma wp_ret s0 s (a : A) : Q s0 a s -> wp R Q E s0 (ret a s).
Proof. intros H. now apply wp_return. Qed.

Lemma wp_throw s0 s e : E s0 e s -> wp R Q E s0 (@throw A e s).
Proof. intros H. now apply wp_raise. Qed.

Lemma wp_gets s0 s (f : State -> A) : Q s0 (f s) s -> wp R Q E s0 (gets f s).
Proof. intros H. now apply wp_return. Qed.

Lemma wp_lift s0 s (r : JsError + A) :
  match r with inl e => E s0 e s | inr a => Q s0 a s end ->
  wp R Q E s0 (lift r s).
Proof. destruct r; intros H; [now apply wp_raise | now apply wp_return]. Qed.

Lemma wp_bind_step {B} (f : B -> Async A) s0 c :
  wp R (fun s0' b s' => wp R Q E s0' (f b s')) E s0 c ->
  wp R Q E s0 (bind_step (snd c) f (fst c)).
Proof.
  induction 1 as [s0 s b H | s0 s e H | s0 s p k HR Hk IH]; cbn.
  - exact H.
  - now apply wp_raise.
  - apply wp_yield; [exact HR |].
    intros o s1. specialize (IH o s1). now destruct (k o s1).
Qed.

Lemma wp_bind {B} (m : Async B) (f : B -> Async A) s0 s :
  wp R (fun s0' b s' => wp R Q E s0' (f b s')) E s0 (m s) ->
  wp R Q E s0 (bind m f s).
Proof.
  intros H. apply wp_bind_step in H. unfold bind. now destruct (m s).
Qed.

Lemma wp_catch_step (h : JsError -> Async A) s0 c :
  wp R Q (fun s0' e s' => wp R Q E s0' (h e s')) s0 c ->
  wp R Q E s0 (catch_step (snd c) h (fst c)).
Proof.
  induction 1 as [s0 s b H | s0 s e H | s0 s p k HR Hk IH]; cbn.
  - now apply wp_return.
  - exact H.
  - apply wp_yield; [exact HR |].
    intros o s1. specialize (IH o s1). now destruct (k o s1).
Qed.

Lemma wp_try_catch (m : Async A) (h : JsError -> Async A) s0 s :
  wp R Q (fun s0' e s' => wp R Q E s0' (h e s')) s0 (m s) ->
  wp R Q E s0 (try_catch m h s).
Proof.
  intros H. apply wp_catch_step in H. unfold try_catch. now destruct (m s).
Qed.

End WpRules.

Lemma wp_modify R (Q : State -> unit -> State -> Prop) E s0 s f :
  Q s0 tt (f s) -> wp R Q E s0 (modify f s).
Proof. intros H. now apply wp_return. Qed.

Lemma wp_await R (Q : State -> Value -> State -> Prop) E s0 s p :
  R s0 s ->
  (forall s1 v, Q s1 v s1) ->
  (forall s1 e, E s1 e s1) ->
  wp R Q E s0 (await p s).
Proof.
  intros HR HQ HE. apply wp_yield; [exact HR |].
  intros [v | e] s1; [now apply wp_return | now apply wp_raise].
Qed.

Lemma wp_weaken R {A} (Q Q' : State -> A -> State -> Prop) (E E' : State -> JsError -> State -> Prop) s0 c :
  (forall s1 a s, Q s1 a s -> Q' s1 a s) ->
  (forall s1 e s, E s1 e s -> E' s1 e s) ->
  wp R Q E s0 c -> wp R Q' E' s0 c.
Proof.
  intros HQ HE. induction 1 as [s0 s b H | s0 s e H | s0 s p k HR Hk IH].
  - apply wp_return. now apply HQ.
  - apply wp_raise. now apply HE.
  - apply wp_yield; [exact HR | exact IH].
Qed.

(** Symbolic execution of a handler, one construct at a time. *)
Ltac wp_step :=
  cbv beta zeta;
  lazymatch goal with
  | |- wp _ _ _ _ (bind _ _ _) => apply wp_bind
  | |- wp _ _ _ _ (try_catch _ _ _) => apply wp_try_catch
  | |- wp _ _ _ _ (ret _ _) => apply wp_ret
  | |- wp _ _ _ _ (throw _ _) => apply wp_throw
  | |- wp _ _ _ _ (gets _ _) => apply wp_gets
  | |- wp _ _ _ _ (modify _ _) => apply wp_modify
  | |- wp _ _ _ _ (await _ _) => apply wp_await; [ | intros ? ? | intros ? ?]
  | |- wp _ _ _ _ (lift ?r _) => apply wp_lift; destruct r eqn:?
  | |- wp _ _ _ _ (lib_call _ _) => unfold lib_call
  | |- wp _ _ _ _ (console_log _ _) => unfold console_log
  | |- wp _ _ _ _ (console_error _ _) => unfold console_error
  | |- wp _ _ _ _ (updateAccountIdDisplay _ _) => unfold updateAccountIdDisplay
  | |- wp _ _ _ _ (updateTopicIdDisplay _ _) => unfold updateTopicIdDisplay
  | |- wp _ _ _ _ (updateMessageStatus _ _) => unfold updateMessageStatus
  | |- wp _ _ _ _ (addClickListener _ _) => unfold addClickListener
  | |- wp _ _ _ _ (initializeWalletConnect _) => unfold initializeWalletConnect
  | |- wp _ _ _ _ (syncWalletconnectState _) => unfold syncWalletconnectState
  | |- wp _ _ _ _ (openWalletConnectModal _) => unfold openWalletConnectModal
  | |- wp _ _ _ _ (openWalletConnectModal_try _) => unfold openWalletConnectModal_try
  | |- wp _ _ _ _ (openWalletConnectModal_catch _ _) => unfold openWalletConnectModal_catch
  | |- wp _ _ _ _ (disconnectWallet_try _) => unfold disconnectWallet_try
  | |- wp _ _ _ _ (disconnectWallet_catch _ _) => unfold disconnectWallet_catch
  | |- wp _ _ _ _ (handleTopicCreation_try _) => unfold handleTopicCreation_try
  | |- wp _ _ _ _ (handleTopicCreation_catch _ _) => unfold handleTopicCreation_catch
  | |- wp _ _ _ _ (handleTopicMessageSubmission_try _ _) =>
      unfold handleTopicMessageSubmission_try
  | |- wp _ _ _ _ (handleTopicMessageSubmission_catch _ _) =>
      unfold handleTopicMessageSubmission_catch
  | |- wp _ _ _ _ (disconnectWallet _) => unfold disconnectWallet
  | |- wp _ _ _ _ (onDisconnectButtonClick _) => unfold onDisconnectButtonClick
  | |- wp _ _ _ _ (handleTopicCreation _) => unfold handleTopicCreation
  | |- wp _ _ _ _ (handleTopicMessageSubmission _ _) => unfold handleTopicMessageSubmission
  | |- wp _ _ _ _ (onDOMContentLoaded _) => unfold onDOMContentLoaded
  | |- wp _ _ _ _ ((if ?b then _ else _) _) => destruct b eqn:?
  | |- wp _ _ _ _ ((match ?x with _ => _ end) _) => destruct x eqn:?
  end.

Ltac wp_run := unfold Respects, respects, never_throws; intros; repeat wp_step; cbv beta.

(** ** The event loop preserves what its listeners respect *)

Section EventLoop.

Variable fromString : string -> JsError + TopicId.
Variable R : State -> State -> Prop.

Hypothesis R_refl : forall s, R s s.
Hypothesis R_trans : forall a b c, R a b -> R b c -> R a c.
Hypothesis R_load : Respects R onDOMContentLoaded.
Hypothesis R_click : forall b, Respects R (listener_of fromString b).
Hypothesis R_signers : forall s l, R s (set_signers l s).
Hypothesis R_input : forall s v, R s (set_dom (type_message v (dom s)) s).

Lemma conclude_ok s0 c pool settled loaded :
  respects R s0 c -> pool_ok R pool ->
  R s0 (rt_state (conclude c pool settled loaded))
  /\ pool_ok R (rt_pool (conclude c pool settled loaded)).
Proof.
  intros Hc Hpool. unfold conclude.
  inversion Hc as [s1 s a H | s1 s e H | s1 s p k HR Hk]; subst; cbn.
  - now split.
  - now split.
  - split; [exact HR |].
    apply Forall_app. split; [exact Hpool |].
    constructor; [exact Hk | constructor].
Qed.

Lemma step_ok rt rt' :
  step fromString rt rt' -> pool_ok R (rt_pool rt) ->
  R (rt_state rt) (rt_state rt') /\ pool_ok R (rt_pool rt').
Proof.
  intros Hstep Hpool.
  destruct Hstep as [rt Hl | rt b Hb | rt p o Hp Hs | rt before after p k o Hk Hs | rt l | rt v].
  - apply conclude_ok; [apply R_load | exact Hpool].
  - apply conclude_ok; [apply R_click | exact Hpool].
  - cbn. now split.
  - rewrite Hk in Hpool. apply Forall_app in Hpool as [Hb Ha].
    inversion Ha as [| pk rest Hpk Hrest]; subst.
    apply conclude_ok; [apply Hpk |].
    apply Forall_app. now split.
  - cbn. split; [apply R_signers | exact Hpool].
  - cbn. split; [apply R_input | exact Hpool].
Qed.

Lemma steps_ok rt rt' :
  steps fromString rt rt' -> pool_ok R (rt_pool rt) ->
  R (rt_state rt) (rt_state rt') /\ pool_ok R (rt_pool rt').
Proof.
  induction 1 as [rt | rt1 rt2 rt3 H12 IH H23]; intros Hpool.
  - now split.
  - destruct (IH Hpool) as [HR Hp2].
    destruct (step_ok _ _ H23 Hp2) as [HR' Hp3].
    split; [eapply R_trans; eassumption | exact Hp3].
Qed.

Lemma reachable_ok rt :
  reachable fromString rt ->
  (exists d, R (initial_state d) (rt_state rt)) /\ pool_ok R (rt_pool rt).
Proof.
  intros [d Hd]. apply steps_ok in Hd; [| constructor].
  destruct Hd as [HR Hp]. split; [now exists d | exact Hp].
Qed.

End EventLoop.

(** ** Substrings *)

Lemma prefix_app (sub post : string) : prefix sub (sub ++ post) = true.
Proof.
  induction sub as [| a sub IH]; cbn.
  - now destruct post.
  - destruct (ascii_dec a a); [exact IH | congruence].
Qed.

Lemma prefix_split (sub s : string) :
  prefix sub s = true -> exists post, s = sub ++ post.
Proof.
  revert s. induction sub as [| a sub IH]; intros s H.
  - now exists s.
  - destruct s as [| b s]; cbn in H; [discriminate |].
    destruct (ascii_dec a b) as [-> |]; [| discriminate].
    destruct (IH s H) as [post ->]. now exists post.
Qed.

Lemma containsb_prefix (sub s : string) :
  prefix sub s = true -> containsb sub s = true.
Proof. destruct s; cbn [containsb]; intros ->; reflexivity. Qed.

Lemma containsb_spec (sub s : string) : containsb sub s = true <-> contains sub s.
Proof.
  split.
  - induction s as [| a s IH]; cbn [containsb]; intros H.
    + rewrite orb_false_r in H. apply prefix_split in H as [post ->].
      now exists EmptyString, post.
    + apply orb_true_iff in H as [H | H].
      * apply prefix_split in H as [post H]. exists EmptyString, post. exact H.
      * destruct (IH H) as (pre & post & ->). now exists (String a pre), post.
  - intros (pre & post & ->). induction pre as [| a pre IH].
    + cbn [append]. apply containsb_prefix, prefix_app.
    + cbn [append containsb]. rewrite IH. apply orb_true_r.
Qed.

Lemma contains_here (sub pre post : string) : contains sub (pre ++ sub ++ post).
Proof. now exists pre, post. Qed.

Lemma not_contains (sub s : string) : containsb sub s = false -> ~ contains sub s.
Proof. intros H Hc. apply containsb_spec in Hc. congruence. Qed.

Lemma TopicId_toString_nonempty (t : TopicId) : TopicId_toString t <> EmptyString.
Proof.
  unfold TopicId_toString. destruct (dec (topic_shard t)); cbn; discriminate.
Qed.

(** ** Driving a computation that satisfies the segment logic *)

Section Driving.

Variable R : State -> State -> Prop.
Context {A : Type}.
Variable Q : State -> A -> State -> Prop.
Variable E : State -> JsError -> State -> Prop.
Hypothesis Q_R : forall s1 a s, Q s1 a s -> R s1 s.
Hypothesis E_R : forall s1 e s, E s1 e s -> R s1 s.

Lemma wp_now s0 c : wp R Q E s0 c -> R s0 (fst c).
Proof. destruct 1; cbn; eauto. Qed.

Lemma wp_later_segments script : forall s0 c,
  wp R Q E s0 c ->
  Forall (fun seg => R (fst seg) (snd seg)) (later_segments c script).
Proof.
  induction script as [| [f o] rest IH]; intros s0 c H; cbn; [constructor |].
  destruct H as [s0 s a H | s0 s e H | s0 s p k HR Hk]; cbn; try constructor.
  - cbn. eapply wp_now, Hk.
  - eapply IH, Hk.
Qed.

Lemma wp_segments (m : Async A) s script :
  wp R Q E s (m s) ->
  Forall (fun seg => R (fst seg) (snd seg)) (segments m s script).
Proof.
  intros H. constructor; [cbn; eapply wp_now, H | eapply wp_later_segments, H].
Qed.

Hypothesis R_trans : forall a b c, R a b -> R b c -> R a c.

Lemma wp_drive script : forall s0 c,
  wp R Q E s0 c ->
  Forall (fun fo => forall s, R s (fst fo s)) script ->
  R s0 (fst (drive c script)).
Proof.
  induction script as [| [f o] rest IH]; intros s0 c H Hscript; cbn.
  - eapply wp_now, H.
  - inversion Hscript as [| fo l Hf Hrest]; subst. cbn in Hf.
    destruct H as [s0 s a H | s0 s e H | s0 s p k HR Hk]; cbn;
      [now apply (Q_R _ a) | now apply (E_R _ e) |].
    eapply R_trans; [exact HR |]. eapply R_trans; [apply Hf |].
    eapply IH; [apply Hk | exact Hrest].
Qed.

End Driving.



Lemma drive_finished {A} (s : State) (r : Step A) script :
  match r with Yield _ _ => False | _ => True end ->
  drive (s, r) script = (s, r).
Proof. destruct script as [| [f o] rest]; destruct r; cbn; tauto. Qed.

(** ** The session invariant *)

Lemma keeps_refl P s : keeps P s s.
Proof. unfold keeps. tauto. Qed.

Lemma keeps_trans P a b c : keeps P a b -> keeps P b c -> keeps P a c.
Proof. unfold keeps. tauto. Qed.

Ltac session_done :=
  unfold keeps, session_consistent; cbn;
  try tauto;
  intros _; split; intros H;
  try discriminate; try reflexivity;
  try (intros ->; discriminate);
  try (now elim H).

Lemma session_load : Respects (keeps session_consistent) onDOMContentLoaded.
Proof. wp_run; session_done. Qed.

Lemma session_click fromString b :
  Respects (keeps session_consistent) (listener_of fromString b).
Proof. destruct b; cbn [listener_of]; wp_run; session_done. Qed.

Lemma session_sync s : session_consistent (fst (syncWalletconnectState s)).
Proof.
  unfold syncWalletconnectState, session_consistent. cbn.
  destruct (first_account (signers s)) as [a |]; cbn.
  - destruct (truthy_string a) eqn:Ha; cbn.
    + split; [intros _ -> ; discriminate | reflexivity].
    + split; [discriminate | intros H; now elim H].
  - split; [discriminate | intros H; now elim H].
Qed.

Lemma session_open_alone :
  forall s, wp (keeps session_consistent)
               (fun s0 _ s1 => keeps session_consistent s0 s1)
               (fun s0 _ s1 => keeps session_consistent s0 s1)
               s (openWalletConnectModal s).
Proof. wp_run; session_done. Qed.

Lemma session_disconnect_alone :
  forall s, wp (keeps session_consistent)
               (fun s0 _ s1 => keeps session_consistent s0 s1)
               (fun s0 _ s1 => keeps session_consistent s0 s1)
               s (disconnectWallet s).
Proof. wp_run; session_done. Qed.

Example parse_TopicId_demo : parse_TopicId "0.0.1234" = inr demo_topic.
Proof. reflexivity. Qed.

Example TopicId_toString_demo : TopicId_toString demo_topic = "0.0.1234".
Proof. reflexivity. Qed.

(** C1. The session invariant, connected exactly when an account identifier
    is recorded, holds when the script is loaded, after every run of
    [syncWalletconnectState], after every run of [openWalletConnectModal]
    and of [disconnectWallet] started where it holds (whatever the library
    answers, and whatever else runs in between that keeps it), and in every
    state the page can reach. *)
Theorem session_invariant (fromString : string -> JsError + TopicId) :
  (forall d, session_consistent (initial_state d))
  /\ (forall s, session_consistent (fst (syncWalletconnectState s)))
  /\ (forall s script,
        session_consistent s ->
        Forall (fun fo => forall s', keeps session_consistent s' (fst fo s')) script ->
        session_consistent (fst (drive (openWalletConnectModal s) script))
        /\ session_consistent (fst (drive (disconnectWallet s) script)))
  /\ (forall rt, reachable fromString rt -> session_consistent (rt_state rt)).
Proof.
  split; [| split; [| split]].
  - intros d. unfold session_consistent. cbn.
    split; [discriminate | intros H; now elim H].
  - exact session_sync.
  - intros s script Hs Hscript. split.
    + refine (wp_drive (keeps session_consistent) _ _ _ _ (keeps_trans _)
                script s _ (session_open_alone s) Hscript Hs); auto.
    + refine (wp_drive (keeps session_consistent) _ _ _ _ (keeps_trans _)
                script s _ (session_disconnect_alone s) Hscript Hs); auto.
  - intros rt Hrt.
    destruct (reachable_ok fromString (keeps session_consistent)
                (keeps_refl _) (keeps_trans _) session_load
                (session_click fromString)) with (rt := rt) as [[d Hd] _];
      try exact Hrt; try (intros; session_done).
    apply Hd. unfold session_consistent. cbn.
    split; [discriminate | intros H; now elim H].
Qed.

Lemma session_invariant_witness :
  (session_consistent (fst (drive (openWalletConnectModal demo_disconnected)
                              (alone [Fulfilled VUndefined; Rejected boom])))
   /\ session_consistent (fst (drive (disconnectWallet demo_connected)
                                 (alone [Fulfilled VUndefined]))))
  /\ session_consistent
       (rt_state (conclude (onDOMContentLoaded (initial_state demo_page)) [] [] true)).
Proof.
  split; [split |].
  - refine (proj1 (proj1 (proj2 (proj2 (session_invariant parse_TopicId)))
                     demo_disconnected _ _ _)).
    + unfold session_consistent. cbn. split; [discriminate | intros H; now elim H].
    + cbn. repeat (apply Forall_cons; [intros s' H; exact H |]). apply Forall_nil.
  - refine (proj2 (proj1 (proj2 (proj2 (session_invariant parse_TopicId)))
                     demo_connected _ _ _)).
    + unfold session_consistent. cbn. split; [intros _; discriminate | reflexivity].
    + cbn. repeat (apply Forall_cons; [intros s' H; exact H |]). apply Forall_nil.
  - apply (proj2 (proj2 (proj2 (session_invariant parse_TopicId)))).
    exists demo_page. eapply steps_snoc; [apply steps_refl |].
    apply (step_load parse_TopicId (initial_runtime demo_page)). reflexivity.
Defined.

(** ** The topic is never cleared *)

Ltac topic_done :=
  unfold keeps, has_topic; cbn;
  try tauto; intros _; apply TopicId_toString_nonempty.

Lemma topic_load : Respects (keeps has_topic) onDOMContentLoaded.
Proof. wp_run; topic_done. Qed.

Lemma topic_click fromString b :
  Respects (keeps has_topic) (listener_of fromString b).
Proof. destruct b; cbn [listener_of]; wp_run; topic_done. Qed.

(** ** Initialization happens once *)

Ltac init_done :=
  unfold keeps, init_once, init_calls; cbn in *;
  rewrite ?filter_app, ?length_app; cbn;
  try discriminate;
  repeat match goal with
    | H : walletConnectInitPromise ?s = _ |- context [walletConnectInitPromise ?s] =>
        rewrite H
    end;
  repeat match goal with
    | |- context [match walletConnectInitPromise ?s with _ => _ end] =>
        destruct (walletConnectInitPromise s)
    end;
  try lia.

Lemma init_load : Respects (keeps init_once) onDOMContentLoaded.
Proof. wp_run; init_done. Qed.

Lemma init_click fromString b :
  Respects (keeps init_once) (listener_of fromString b).
Proof. destruct b; cbn [listener_of]; wp_run; init_done. Qed.

(** ** The scheduler follows the event loop *)

Lemma take_task_spec p : forall pool before k after,
  take_task p pool = Some (before, k, after) ->
  pool = (before ++ (p, k) :: after)%list.
Proof.
  induction pool as [| [q k0] rest IH]; intros before k after H; cbn in H.
  - discriminate.
  - destruct (Nat.eqb p q) eqn:Hpq.
    + apply Nat.eqb_eq in Hpq. inversion H; subst. reflexivity.
    + destruct (take_task p rest) as [[[b k'] a] |]; [| discriminate].
      inversion H; subst. cbn. f_equal. now apply IH.
Qed.

Lemma Button_eqb_eq a b : Button_eqb a b = true -> a = b.
Proof. destruct a, b; cbn; congruence. Qed.

Lemma perform_step fromString rt a rt' :
  perform fromString rt a = Some rt' -> step fromString rt rt'.
Proof.
  destruct a as [| b | p o | p | l | v]; cbn [perform]; intros H.
  - destruct (rt_loaded rt) eqn:Hl; [discriminate |].
    inversion H; subst. now apply step_load.
  - destruct (existsb _ _) eqn:Hb; [| discriminate].
    inversion H; subst. apply step_click.
    apply existsb_exists in Hb as (x & Hin & Hx).
    apply Button_eqb_eq in Hx. now subst.
  - destruct (p <? next_promise (rt_state rt))%nat eqn:Hp; [| discriminate].
    apply Nat.ltb_lt in Hp.
    destruct (settled_outcome (rt_settled rt) p) eqn:Hs; [discriminate |].
    inversion H; subst. now apply step_settle.
  - destruct (take_task p (rt_pool rt)) as [[[before k] after] |] eqn:Ht;
      [| discriminate].
    destruct (settled_outcome (rt_settled rt) p) as [o |] eqn:Hs; [| discriminate].
    inversion H; subst. apply take_task_spec in Ht.
    now apply step_resume with (p := p).
  - inversion H; subst. apply step_signers.
  - inversion H; subst. apply step_input.
Qed.

Lemma steps_trans fromString rt1 rt2 rt3 :
  steps fromString rt1 rt2 -> steps fromString rt2 rt3 -> steps fromString rt1 rt3.
Proof.
  intros H12 H23. induction H23 as [rt | rt2 rt3 rt4 H23 IH H34].
  - exact H12.
  - eapply steps_snoc; [apply IH; exact H12 | exact H34].
Qed.

Lemma perform_all_steps fromString actions : forall rt rt',
  perform_all fromString rt actions = Some rt' -> steps fromString rt rt'.
Proof.
  induction actions as [| a rest IH]; intros rt rt' H; cbn in H.
  - inversion H; subst. apply steps_refl.
  - destruct (perform fromString rt a) as [rt1 |] eqn:Ha; [| discriminate].
    apply perform_step in Ha.
    eapply steps_trans; [| apply IH; exact H].
    eapply steps_snoc; [apply steps_refl | exact Ha].
Qed.

Lemma perform_all_app fromString actions more : forall rt,
  perform_all fromString rt (actions ++ more)
  = match perform_all fromString rt actions with
    | Some rt' => perform_all fromString rt' more
    | None => None
    end.
Proof.
  induction actions as [| a rest IH]; intros rt; cbn; [reflexivity |].
  destruct (perform fromString rt a); [apply IH | reflexivity].
Qed.

Lemma page_after_reachable fromString d actions :
  reachable fromString (page_after fromString d actions).
Proof.
  exists d. unfold page_after.
  destruct (perform_all fromString (initial_runtime d) actions) eqn:H.
  - now apply perform_all_steps in H.
  - apply steps_refl.
Qed.

Lemma page_after_steps fromString d actions more :
  perform_all fromString (initial_runtime d) (actions ++ more) <> None ->
  steps fromString (page_after fromString d actions)
        (page_after fromString d (actions ++ more)).
Proof.
  unfold page_after. rewrite perform_all_app.
  destruct (perform_all fromString (initial_runtime d) actions) as [rt |];
    [| intros H; now elim H].
  destruct (perform_all fromString rt more) as [rt' |] eqn:Hm;
    [| intros H; now elim H].
  intros _. now apply perform_all_steps in Hm.
Qed.

Example demo_topic_created :
  topicId (rt_state (page_after parse_TopicId demo_page (demo_load ++ demo_create)))
  = "0.0.1234".
Proof. vm_compute. reflexivity. Qed.

(** C7. Once the topic variable holds a non-empty value it is never empty
    again: along every execution of the page from a reachable state, a
    state that has a topic is followed only by states that have one. *)
Theorem topic_never_cleared (fromString : string -> JsError + TopicId) rt rt' :
  reachable fromString rt ->
  steps fromString rt rt' ->
  has_topic (rt_state rt) ->
  has_topic (rt_state rt').
Proof.
  intros Hrt Hsteps.
  assert (Hsig : forall s l, keeps has_topic s (set_signers l s))
    by (intros; topic_done).
  assert (Hin : forall s v, keeps has_topic s (set_dom (type_message v (dom s)) s))
    by (intros; topic_done).
  destruct (reachable_ok fromString (keeps has_topic)
              (keeps_refl _) (keeps_trans _) topic_load
              (topic_click fromString) Hsig Hin rt Hrt) as [_ Hpool].
  exact (proj1 (steps_ok fromString (keeps has_topic)
                  (keeps_refl _) (keeps_trans _) topic_load
                  (topic_click fromString) Hsig Hin rt rt' Hsteps Hpool)).
Qed.

Lemma topic_never_cleared_witness :
  has_topic (rt_state (page_after parse_TopicId demo_page
                         ((demo_load ++ demo_create) ++ demo_later))).
Proof.
  apply (topic_never_cleared parse_TopicId
           (page_after parse_TopicId demo_page (demo_load ++ demo_create))).
  - apply page_after_reachable.
  - apply page_after_steps. vm_compute. discriminate.
  - vm_compute. discriminate.
Defined.

Example demo_later_disconnected :
  isConnected (rt_state (page_after parse_TopicId demo_page
                           ((demo_load ++ demo_create) ++ demo_later))) = false.
Proof. vm_compute. reflexivity. Qed.

(** C8. However often and in whatever interleaving the page load and the
    connect clicks run [initializeWalletConnect], [dappConnector.init()] is
    invoked at most once: the first run invokes it and stores its promise,
    and a run that finds a stored promise awaits that very promise without
    touching the state. *)
Theorem init_at_most_once (fromString : string -> JsError + TopicId) :
  (forall rt, reachable fromString rt -> init_calls (rt_state rt) <= 1)
  /\ (forall s p,
        walletConnectInitPromise s = Some p ->
        exists k, initializeWalletConnect s = (s, Yield p k))
  /\ (forall s,
        walletConnectInitPromise s = None ->
        exists k,
          initializeWalletConnect s
          = (set_walletConnectInitPromise (Some (next_promise s))
               (emit (Called Init (next_promise s)) (alloc_promise s)),
             Yield (next_promise s) k)).
Proof.
  split; [| split].
  - intros rt Hrt.
    assert (Hsig : forall s l, keeps init_once s (set_signers l s))
      by (intros; init_done).
    assert (Hin : forall s v, keeps init_once s (set_dom (type_message v (dom s)) s))
      by (intros; init_done).
    destruct (reachable_ok fromString (keeps init_once)
                (keeps_refl _) (keeps_trans _) init_load
                (init_click fromString) Hsig Hin rt Hrt) as [[d Hd] _].
    assert (H0 : init_once (initial_state d)) by reflexivity.
    apply Hd in H0. unfold init_once in H0.
    destruct (walletConnectInitPromise (rt_state rt)); lia.
  - intros s p H. unfold initializeWalletConnect, bind, gets. cbn.
    rewrite H. cbn. rewrite H. cbn. eexists. reflexivity.
  - intros s H. unfold initializeWalletConnect, bind, gets. cbn.
    rewrite H. cbn. eexists. reflexivity.
Qed.

Lemma init_at_most_once_witness :
  init_calls (rt_state (page_after parse_TopicId demo_page demo_connect_twice)) <= 1
  /\ (exists k, initializeWalletConnect demo_connected = (demo_connected, Yield 0 k))
  /\ (exists k,
        initializeWalletConnect (initial_state demo_page)
        = (set_walletConnectInitPromise (Some 0)
             (emit (Called Init 0) (alloc_promise (initial_state demo_page))),
           Yield 0 k)).
Proof.
  split; [| split].
  - apply (proj1 (init_at_most_once parse_TopicId)). apply page_after_reachable.
  - apply (proj1 (proj2 (init_at_most_once parse_TopicId)) demo_connected 0).
    reflexivity.
  - apply (proj2 (proj2 (init_at_most_once parse_TopicId)) (initial_state demo_page)).
    reflexivity.
Defined.

Example demo_connect_twice_pool :
  map fst (rt_pool (page_after parse_TopicId demo_page demo_connect_twice)) = [1; 2]
  /\ init_calls (rt_state (page_after parse_TopicId demo_page demo_connect_twice)) = 1.
Proof. vm_compute. split; reflexivity. Qed.

(** ** Rendering *)

Lemma append_assoc3 (a b c : string) : ((a ++ b) ++ c = a ++ b ++ c)%string.
Proof. induction a as [| x a IH]; cbn; [reflexivity | now rewrite IH]. Qed.






Lemma render_topic_shows html d :
  el_topicIdDisplay d <> None -> el_topicIdDisplay (render_topic html d) = Some html.
Proof.
  unfold render_topic. destruct (el_topicIdDisplay d); [reflexivity | intros H; now elim H].
Qed.

Lemma render_status_shows html d :
  el_messageStatus d <> None -> el_messageStatus (render_status html d) = Some html.
Proof.
  unfold render_status. destruct (el_messageStatus d); [reflexivity | intros H; now elim H].
Qed.



Example create_topic_no_id :
  let after := drive (handleTopicCreation demo_connected)
                 (alone [Fulfilled VUndefined; Fulfilled (VResponse demo_response);
                         Fulfilled (VReceipt {| receipt_status := js_undefined;
                                                receipt_topicId := js_null |})]) in
  snd after = Return tt
  /\ topicId (fst after) = "0.0.1234"
  /\ el_topicIdDisplay (dom (fst after)) = Some "Topic creation failed (no topicId)".
Proof. vm_compute. repeat split. Qed.

(** ** The segment after the receipt of a submission *)

Lemma submit_after_receipt (fromString : string -> JsError + TopicId)
    s msg t f1 f2 f3 v r rc :
  isConnected s = true ->
  topicId s <> EmptyString ->
  el_messageInput (dom s) = Some msg ->
  msg <> EmptyString ->
  fromString (topicId s) = inr t ->
  let before := drive (handleTopicMessageSubmission fromString s)
                  [(f1, Fulfilled v); (f2, Fulfilled (VResponse r))] in
  let after := drive (handleTopicMessageSubmission fromString s)
                 [(f1, Fulfilled v); (f2, Fulfilled (VResponse r));
                  (f3, Fulfilled (VReceipt rc))] in
  let pre := f3 (fst before) in
  let text := template Status_toString (receipt_status rc) in
  snd after = Return tt
  /\ dom (fst after)
     = render_status
         (if text =? "SUCCESS"
          then message_submitted_html (topicId pre)
          else "Message submission failed: " ++ text)
         (dom pre)
  /\ trace (fst after)
     = (trace pre
        ++ [ConsoleLog [LStr "Receipt for message submission:"; LVal (VReceipt rc)];
            if text =? "SUCCESS"
            then ConsoleLog [LStr ("Message " ++ dq ++ msg ++ dq
                                   ++ " submitted to topic " ++ topicId pre ++ ".")]
            else ConsoleError [LStr "Message submission failed, status:";
                               LStatus (receipt_status rc)]])%list.
Proof.
  intros Hc Ht Hm Hmsg Hp before after pre text.
  destruct s as [acc conn top prom d sg ls np tr].
  destruct d as [e1 e2 e3 e4 e5 e6 e7]. cbn in Hc, Ht, Hm, Hp. subst conn e5.
  destruct top as [| c0 top]; [now elim Ht |].
  destruct msg as [| c1 msg]; [now elim Hmsg |].
  destruct rc as [st created].
  subst before after pre text.
  destruct st as [| | [name]];
    lazy -[String.eqb append render_status message_submitted_html app];
    rewrite Hp;
    lazy -[String.eqb append render_status message_submitted_html app];
    try destruct (name =? "SUCCESS");
    (split; [reflexivity | split; [reflexivity |]]);
    rewrite <- app_assoc; reflexivity.
Qed.




(** C10. In a submit-message run whose receipt has no status (undefined or
    null), inspecting the status does not throw: [toString] is not called on
    the absent value, the handler returns normally, and the failure branch
    writes "Message submission failed: " followed by the absent value's
    rendering. *)
Theorem submit_absent_status (fromString : string -> JsError + TopicId)
    s msg t f1 f2 f3 v r rc :
  isConnected s = true ->
  topicId s <> EmptyString ->
  el_messageInput (dom s) = Some msg ->
  msg <> EmptyString ->
  fromString (topicId s) = inr t ->
  truthy (receipt_status rc) = false ->
  let before := drive (handleTopicMessageSubmission fromString s)
                  [(f1, Fulfilled v); (f2, Fulfilled (VResponse r))] in
  let after := drive (handleTopicMessageSubmission fromString s)
                 [(f1, Fulfilled v); (f2, Fulfilled (VResponse r));
                  (f3, Fulfilled (VReceipt rc))] in
  let pre := f3 (fst before) in
  let text := template Status_toString (receipt_status rc) in
  status_is_success (receipt_status rc) = inr false
  /\ (text = "undefined" \/ text = "null")
  /\ snd after = Return tt
  /\ dom (fst after) = render_status ("Message submission failed: " ++ text) (dom pre)
  /\ trace (fst after)
     = (trace pre
        ++ [ConsoleLog [LStr "Receipt for message submission:"; LVal (VReceipt rc)];
            ConsoleError [LStr "Message submission failed, status:";
                          LStatus (receipt_status rc)]])%list.
Proof.
  intros Hc Ht Hm Hmsg Hp Habsent before after pre text.
  destruct (submit_after_receipt fromString s msg t f1 f2 f3 v r rc
              Hc Ht Hm Hmsg Hp) as (Hret & Hdom & Htrace).
  fold before after pre text in Hret, Hdom, Htrace.
  assert (Htext : (text =? "SUCCESS") = false).
  { subst text. destruct (receipt_status rc); [reflexivity | reflexivity | discriminate]. }
  rewrite Htext in Hdom, Htrace.
  split; [| split; [| split; [| split]]].
  - destruct (receipt_status rc); [reflexivity | reflexivity | discriminate].
  - subst text. destruct (receipt_status rc); [now left | now right | discriminate].
  - exact Hret.
  - exact Hdom.
  - exact Htrace.
Qed.

Lemma submit_absent_status_witness :
  el_messageStatus
    (dom (fst (drive (handleTopicMessageSubmission parse_TopicId demo_connected)
                 (alone [Fulfilled VUndefined; Fulfilled (VResponse demo_response);
                         Fulfilled (VReceipt {| receipt_status := js_undefined;
                                                receipt_topicId := js_undefined |})]))))
  = Some "Message submission failed: undefined".
Proof.
  pose proof (submit_absent_status parse_TopicId demo_connected "hello" demo_topic
                (fun s => s) (fun s => s) (fun s => s)
                VUndefined demo_response
                {| receipt_status := js_undefined; receipt_topicId := js_undefined |}) as H.
  cbv zeta in H.
  destruct H as (_ & _ & _ & Hdom & _);
    [reflexivity | discriminate | reflexivity | discriminate | reflexivity
    | reflexivity |].
  unfold alone, map. rewrite Hdom. reflexivity.
Defined.

(** ** Preconditions *)

(** C6. Create-topic while not connected invokes no SDK operation (no
    transaction is built, frozen, executed or receipt-fetched, and no promise
    is created), writes the prompt "Connect a wallet first!" to the topic
    display, leaves the topic variable unchanged and returns at once. *)
Theorem create_topic_requires_connection s :
  isConnected s = false ->
  handleTopicCreation s
  = (set_dom (render_topic "Connect a wallet first!" (dom s))
       (emit (ConsoleError [LStr "Connect wallet first!"]) s),
     Return tt)
  /\ sdk_events (fst (handleTopicCreation s)) = sdk_events s
  /\ next_promise (fst (handleTopicCreation s)) = next_promise s
  /\ topicId (fst (handleTopicCreation s)) = topicId s
  /\ (el_topicIdDisplay (dom s) <> None ->
      el_topicIdDisplay (dom (fst (handleTopicCreation s)))
      = Some "Connect a wallet first!").
Proof.
  intros Hc.
  assert (Hrun : handleTopicCreation s
                 = (set_dom (render_topic "Connect a wallet first!" (dom s))
                      (emit (ConsoleError [LStr "Connect wallet first!"]) s),
                    Return tt)).
  { destruct s as [acc conn top prom d sg ls np tr]. cbn in Hc. subst conn.
    reflexivity. }
  rewrite Hrun. cbn [fst]. split; [reflexivity | split; [| split; [| split]]].
  - unfold sdk_events. cbn. rewrite filter_app. cbn. apply app_nil_r.
  - reflexivity.
  - reflexivity.
  - intros Hd. cbn. now apply render_topic_shows.
Qed.

Lemma create_topic_requires_connection_witness :
  snd (handleTopicCreation demo_disconnected) = Return tt
  /\ sdk_events (fst (handleTopicCreation demo_disconnected)) = []
  /\ el_topicIdDisplay (dom (fst (handleTopicCreation demo_disconnected)))
     = Some "Connect a wallet first!".
Proof.
  destruct (create_topic_requires_connection demo_disconnected eq_refl)
    as (Hrun & Hsdk & _ & _ & Hshow).
  split; [| split].
  - rewrite Hrun. reflexivity.
  - rewrite Hsdk. reflexivity.
  - apply Hshow. discriminate.
Defined.

(** ** Disconnecting *)

(** C4, as the spec states it, fails: when [disconnectAll] throws, the
    session stays connected and the display is left alone. *)
Lemma disconnect_throw_counterexample :
  let after := drive (disconnectWallet demo_connected) (alone [Rejected boom]) in
  ~ (isConnected (fst after) = false
     /\ accountId (fst after) = EmptyString
     /\ el_accountId (dom (fst after)) = Some "No account connected").
Proof. vm_compute. intros [H _]. discriminate. Qed.

(** C4, amended. A disconnect in the connected state calls [disconnectAll].
    When that call throws, the handler only logs the error: the session
    variables and the display are exactly as they were when the call
    settled.  The local state is cleared, and "No account connected" is
    displayed, when the call succeeds. *)
Theorem disconnect_outcome s f :
  isConnected s = true ->
  let before := disconnectWallet s in
  let pre := f (fst before) in
  (exists k,
      before = (emit (Called DisconnectAll (next_promise s)) (alloc_promise s),
                Yield (next_promise s) k))
  /\ (forall e,
        drive before [(f, Rejected e)]
        = (emit (ConsoleError [LStr "Failed to disconnect wallet"; LErr e]) pre,
           Return tt))
  /\ (forall v,
        let after := drive before [(f, Fulfilled v)] in
        snd after = Return tt
        /\ isConnected (fst after) = false
        /\ accountId (fst after) = EmptyString
        /\ dom (fst after) = render_account "No account connected" (dom pre)).
Proof.
  intros Hc before pre. subst before pre.
  destruct s as [acc conn top prom d sg ls np tr]. cbn in Hc. subst conn.
  split; [| split].
  - eexists. lazy. reflexivity.
  - intros e. lazy. reflexivity.
  - intros v. lazy -[render_account]. repeat split.
Qed.

Lemma disconnect_outcome_witness :
  drive (disconnectWallet demo_connected) (alone [Rejected boom])
  = (emit (ConsoleError [LStr "Failed to disconnect wallet"; LErr boom])
       (fst (disconnectWallet demo_connected)),
     Return tt)
  /\ isConnected (fst (drive (disconnectWallet demo_connected)
                         (alone [Fulfilled VUndefined]))) = false.
Proof.
  destruct (disconnect_outcome demo_connected (fun s => s) eq_refl)
    as (_ & Hthrow & Hok).
  split.
  - exact (Hthrow boom).
  - exact (proj1 (proj2 (Hok VUndefined))).
Defined.

(** ** Errors *)








Example create_topic_type_error :
  el_topicIdDisplay
    (dom (fst (drive (handleTopicCreation demo_connected)
                 (alone [Fulfilled VUndefined; Fulfilled VUndefined]))))
  = Some "Topic creation error: Cannot read properties of undefined (reading 'getReceiptWithSigner')".
Proof. vm_compute. reflexivity. Qed.

(** ** Frame *)

Lemma same_session_trans a b c :
  same_session a b -> same_session b c -> same_session a c.
Proof. unfold same_session. intros [H1 H2] [H3 H4]. split; congruence. Qed.

Lemma same_globals_trans a b c :
  same_globals a b -> same_globals b c -> same_globals a c.
Proof.
  unfold same_globals. intros (H1 & H2 & H3) (H4 & H5 & H6).
  repeat split; congruence.
Qed.

Lemma alone_respects (R : State -> State -> Prop) outcomes :
  (forall s, R s s) ->
  Forall (fun fo : (State -> State) * Outcome => forall s, R s (fst fo s))
         (alone outcomes).
Proof.
  intros Hrefl. induction outcomes as [| o rest IH]; cbn; constructor; auto.
Qed.

Lemma create_frame s :
  wp same_session (fun s0 _ s1 => same_session s0 s1)
     (fun s0 _ s1 => same_session s0 s1) s (handleTopicCreation s).
Proof. wp_run; unfold same_session; cbn; auto. Qed.

Lemma submit_frame fromString s :
  wp same_globals (fun s0 _ s1 => same_globals s0 s1)
     (fun s0 _ s1 => same_globals s0 s1) s
     (handleTopicMessageSubmission fromString s).
Proof. wp_run; unfold same_globals; cbn; auto. Qed.

(** C9. Every atomic segment that [handleTopicCreation] executes, in any
    run and whatever happens while it is suspended, leaves [accountId] and
    [isConnected] as they were when the segment started, and every segment
    of [handleTopicMessageSubmission] leaves [accountId], [isConnected] and
    [topicId] so; a run that nothing interferes with therefore ends with
    these variables as it found them. *)
Theorem handlers_frame (fromString : string -> JsError + TopicId) :
  (forall s script,
      Forall (fun seg => same_session (fst seg) (snd seg))
             (segments handleTopicCreation s script))
  /\ (forall s script,
        Forall (fun seg => same_globals (fst seg) (snd seg))
               (segments (handleTopicMessageSubmission fromString) s script))
  /\ (forall s outcomes,
        same_session s (fst (drive (handleTopicCreation s) (alone outcomes))))
  /\ (forall s outcomes,
        same_globals s
          (fst (drive (handleTopicMessageSubmission fromString s) (alone outcomes)))).
Proof.
  split; [| split; [| split]].
  - intros s script.
    apply (wp_segments same_session _ _ (fun _ _ _ H => H) (fun _ _ _ H => H)).
    apply create_frame.
  - intros s script.
    apply (wp_segments same_globals _ _ (fun _ _ _ H => H) (fun _ _ _ H => H)).
    apply submit_frame.
  - intros s outcomes.
    apply (wp_drive same_session _ _ (fun _ _ _ H => H) (fun _ _ _ H => H)
             same_session_trans (alone outcomes) s _ (create_frame s)).
    apply alone_respects. intros s0. now split.
  - intros s outcomes.
    apply (wp_drive same_globals _ _ (fun _ _ _ H => H) (fun _ _ _ H => H)
             same_globals_trans (alone outcomes) s _ (submit_frame fromString s)).
    apply alone_respects. intros s0. now repeat split.
Qed.

Example create_topic_writes_topic :
  let after := fst (drive (handleTopicCreation demo_disconnected) (alone [])) in
  topicId after = EmptyString
  /\ topicId (fst (drive (handleTopicCreation
                            (set_isConnected true (set_signers [demo_signer]
                               (set_accountId "0.0.5" demo_disconnected))))
                     (alone [Fulfilled VUndefined; Fulfilled (VResponse demo_response);
                             Fulfilled (VReceipt demo_receipt)])))
     = "0.0.1234".
Proof. vm_compute. split; reflexivity. Qed.

(** ** Synchronizing with the wallet *)

Lemma dec_starts_with_digit (n : N) :
  exists c rest, dec n = String c rest /\ (c =? "N")%char = false.
Proof.
  unfold dec. destruct (N.to_uint n) as [| d | d | d | d | d | d | d | d | d | d];
    cbn; eexists _, _; split; reflexivity.
Qed.

Lemma AccountId_toString_truthy (a : AccountId) :
  truthy_string (AccountId_toString a) = true.
Proof.
  unfold AccountId_toString.
  destruct (dec_starts_with_digit (account_shard a)) as (c & rest & -> & _).
  reflexivity.
Qed.

Lemma AccountId_toString_not_placeholder (a : AccountId) :
  (AccountId_toString a =? "No account connected") = false.
Proof.
  unfold AccountId_toString.
  destruct (dec_starts_with_digit (account_shard a)) as (c & rest & -> & Hc).
  cbn. now rewrite Hc.
Qed.

Lemma first_account_some l a :
  first_account l = Some a ->
  truthy_string a = true /\ (a =? "No account connected") = false.
Proof.
  destruct l as [| sg rest]; cbn; [discriminate |].
  destruct (getAccountId sg) as [| | acct]; try discriminate.
  intros H. inversion H; subst.
  split; [apply AccountId_toString_truthy | apply AccountId_toString_not_placeholder].
Qed.

Lemma render_account_shows value d :
  el_accountId d <> None -> el_disconnectButton d <> None ->
  el_accountId (render_account value d) = Some value
  /\ el_disconnectButton (render_account value d)
     = Some (if truthy_string value && negb (value =? "No account connected")
             then "Connected - Click to Disconnect"
             else "Connect to WalletConnect").
Proof.
  unfold render_account. intros H1 H2.
  destruct (el_accountId d); [| now elim H1].
  destruct (el_disconnectButton d); [| now elim H2].
  now split.
Qed.

Lemma sync_spec s :
  let s' := fst (syncWalletconnectState s) in
  snd (syncWalletconnectState s) = Return tt
  /\ topicId s' = topicId s
  /\ (forall a,
        first_account (signers s) = Some a ->
        isConnected s' = true /\ accountId s' = a
        /\ dom s' = render_account a (dom s)
        /\ (el_accountId (dom s) <> None -> el_disconnectButton (dom s) <> None ->
            el_accountId (dom s') = Some a
            /\ el_disconnectButton (dom s') = Some "Connected - Click to Disconnect"))
  /\ (first_account (signers s) = None ->
      isConnected s' = false /\ accountId s' = EmptyString
      /\ dom s' = render_account "No account connected" (dom s)
      /\ (el_accountId (dom s) <> None -> el_disconnectButton (dom s) <> None ->
          el_accountId (dom s') = Some "No account connected"
          /\ el_disconnectButton (dom s') = Some "Connect to WalletConnect")).
Proof.
  intros s'. subst s'. unfold syncWalletconnectState, bind, gets. cbn.
  destruct (first_account (signers s)) as [a |] eqn:Ha.
  - destruct (first_account_some _ _ Ha) as [Ht Hp]. rewrite Ht. cbn.
    split; [reflexivity | split; [reflexivity | split]].
    + intros a' Ha'. inversion Ha'; subst a'.
      split; [reflexivity | split; [reflexivity | split; [reflexivity |]]].
      intros H1 H2. destruct (render_account_shows a (dom s) H1 H2) as [E1 E2].
      rewrite E1, E2, Ht, Hp. now split.
    + discriminate.
  - cbn. split; [reflexivity | split; [reflexivity | split]].
    + discriminate.
    + intros _. split; [reflexivity | split; [reflexivity | split; [reflexivity |]]].
      intros H1 H2.
      destruct (render_account_shows "No account connected" (dom s) H1 H2) as [E1 E2].
      now split.
Qed.

(** X1. [syncWalletconnectState] returns at once (it never suspends or
    throws).  With a first signer that has an account it records the account,
    sets the session connected, shows the account and labels the button
    "Connected - Click to Disconnect"; otherwise it clears both variables,
    shows "No account connected" and labels the button "Connect to
    WalletConnect".  It leaves the topic variable alone. *)
Theorem sync_result s :
  let s' := fst (syncWalletconnectState s) in
  snd (syncWalletconnectState s) = Return tt
  /\ topicId s' = topicId s
  /\ (forall a,
        first_account (signers s) = Some a ->
        isConnected s' = true /\ accountId s' = a
        /\ dom s' = render_account a (dom s)
        /\ (el_accountId (dom s) <> None -> el_disconnectButton (dom s) <> None ->
            el_accountId (dom s') = Some a
            /\ el_disconnectButton (dom s') = Some "Connected - Click to Disconnect"))
  /\ (first_account (signers s) = None ->
      isConnected s' = false /\ accountId s' = EmptyString
      /\ dom s' = render_account "No account connected" (dom s)
      /\ (el_accountId (dom s) <> None -> el_disconnectButton (dom s) <> None ->
          el_accountId (dom s') = Some "No account connected"
          /\ el_disconnectButton (dom s') = Some "Connect to WalletConnect")).
Proof. exact (sync_spec s). Qed.

Lemma sync_result_witness :
  let s' := fst (syncWalletconnectState
                   (set_signers [demo_signer] demo_disconnected)) in
  isConnected s' = true /\ accountId s' = "0.0.5"
  /\ el_disconnectButton (dom s') = Some "Connected - Click to Disconnect"
  /\ el_accountId (dom (fst (syncWalletconnectState (set_signers [] demo_connected))))
     = Some "No account connected".
Proof.
  cbv zeta.
  destruct (sync_result (set_signers [demo_signer] demo_disconnected))
    as (_ & _ & Hyes & _).
  destruct (Hyes "0.0.5" eq_refl) as (H1 & H2 & _ & Hshow).
  destruct Hshow as [_ H3]; [discriminate | discriminate |].
  destruct (sync_result (set_signers [] demo_connected)) as (_ & _ & _ & Hno).
  destruct (Hno eq_refl) as (_ & _ & _ & Hshow').
  destruct Hshow' as [H4 _]; [discriminate | discriminate |].
  repeat split; assumption.
Defined.

(** ** Invariants of the page *)

Lemma same_elements_refl d : same_elements d d.
Proof. unfold same_elements. tauto. Qed.

Lemma same_page_trans a b c : same_page a b -> same_page b c -> same_page a c.
Proof.
  unfold same_page, same_elements.
  intros (A1 & A2 & A3 & A4 & A5 & A6 & A7) (B1 & B2 & B3 & B4 & B5 & B6 & B7).
  repeat split; congruence.
Qed.

Lemma render_account_elements v d : same_elements d (render_account v d).
Proof.
  unfold same_elements, render_account.
  destruct (el_accountId d) eqn:H1, (el_disconnectButton d) eqn:H2; cbn;
    rewrite ?H1, ?H2; tauto.
Qed.

Lemma render_topic_elements v d : same_elements d (render_topic v d).
Proof.
  unfold same_elements, render_topic.
  destruct (el_topicIdDisplay d) eqn:H1; cbn; rewrite ?H1; tauto.
Qed.

Lemma render_status_elements v d : same_elements d (render_status v d).
Proof.
  unfold same_elements, render_status.
  destruct (el_messageStatus d) eqn:H1; cbn; rewrite ?H1; tauto.
Qed.

Lemma type_message_elements v d : same_elements d (type_message v d).
Proof.
  unfold same_elements, type_message.
  destruct (el_messageInput d) eqn:H1; cbn; rewrite ?H1; tauto.
Qed.

Ltac page_done :=
  unfold same_page; cbn;
  repeat match goal with
    | |- same_elements ?d ?d => apply same_elements_refl
    | |- same_elements ?d (render_account _ ?d) => apply render_account_elements
    | |- same_elements ?d (render_topic _ ?d) => apply render_topic_elements
    | |- same_elements ?d (render_status _ ?d) => apply render_status_elements
    | |- same_elements ?d (type_message _ ?d) => apply type_message_elements
    end.

Lemma page_load : Respects same_page onDOMContentLoaded.
Proof. wp_run; page_done. Qed.

Lemma page_click fromString b : Respects same_page (listener_of fromString b).
Proof. destruct b; cbn [listener_of]; wp_run; page_done. Qed.

Lemma steps_same_page (fromString : string -> JsError + TopicId) rt rt' :
  steps fromString rt rt' ->
  pool_ok same_page (rt_pool rt) ->
  same_page (rt_state rt) (rt_state rt') /\ pool_ok same_page (rt_pool rt').
Proof.
  assert (Hsig : forall s l, same_page s (set_signers l s)) by (intros; page_done).
  assert (Hin : forall s v, same_page s (set_dom (type_message v (dom s)) s))
    by (intros; page_done).
  assert (Hrefl : forall s, same_page s s) by (intros; page_done).
  exact (steps_ok fromString same_page Hrefl same_page_trans page_load
           (page_click fromString) Hsig Hin rt rt').
Qed.



(** ** The display follows the session *)

Ltac display_done :=
  repeat match goal with
    | H : first_account _ = Some _ |- _ =>
        apply first_account_some in H; destruct H as [? ?]
    end;
  repeat match goal with
    | H : has_button _ _ = _ |- _ => clear H
    end;
  repeat match goal with
    | s : State |- _ => destruct s
    end;
  repeat match goal with
    | d : Dom |- _ => destruct d
    end;
  unfold keeps, display_invariant, display_synced, render_account, render_topic,
    render_status, type_message; cbn;
  repeat match goal with
    | |- context [match ?x with _ => _ end] => is_var x; destruct x; cbn
    end;
  repeat match goal with
    | H : truthy_string ?a = _ |- context [truthy_string ?a] => rewrite H; cbn
    | H : (?a =? _) = _ |- context [?a =? _] => rewrite H; cbn
    end;
  try tauto;
  try (intros _; right; split; reflexivity).

Lemma display_load : Respects (keeps display_invariant) onDOMContentLoaded.
Proof. wp_run; display_done. Qed.

Lemma display_click fromString b :
  Respects (keeps display_invariant) (listener_of fromString b).
Proof. destruct b; cbn [listener_of]; wp_run; display_done. Qed.

(** X3. Once the page-load handler has registered a click listener, the
    account display and the label of the connect button always agree with
    the session variables: connected shows the account identifier and
    "Connected - Click to Disconnect", disconnected shows "No account
    connected" and "Connect to WalletConnect", in every state the page can
    reach. *)
Theorem display_follows_session (fromString : string -> JsError + TopicId) rt :
  reachable fromString rt ->
  listeners (rt_state rt) <> [] ->
  display_synced (rt_state rt).
Proof.
  intros Hrt Hl.
  assert (Hsig : forall s l, keeps display_invariant s (set_signers l s))
    by (intros; display_done).
  assert (Hin : forall s v,
             keeps display_invariant s (set_dom (type_message v (dom s)) s))
    by (intros; display_done).
  destruct (reachable_ok fromString (keeps display_invariant)
              (keeps_refl _) (keeps_trans _) display_load
              (display_click fromString) Hsig Hin rt Hrt) as [[d Hd] _].
  destruct (Hd (or_introl eq_refl)) as [H | H]; [now elim Hl | exact H].
Qed.

Lemma display_follows_session_witness :
  display_synced
    (rt_state (page_after parse_TopicId demo_page
                 ((demo_load ++ demo_create) ++ demo_later))).
Proof.
  apply (display_follows_session parse_TopicId).
  - apply page_after_reachable.
  - vm_compute. discriminate.
Defined.

Example demo_later_display :
  el_disconnectButton
    (dom (rt_state (page_after parse_TopicId demo_page
                      ((demo_load ++ demo_create) ++ demo_later))))
  = Some "Connect to WalletConnect".
Proof. vm_compute. reflexivity. Qed.

(** ** The identifier variables *)

Lemma first_account_rendered l a :
  first_account l = Some a -> exists acct, a = AccountId_toString acct.
Proof.
  destruct l as [| sg rest]; cbn; [discriminate |].
  destruct (getAccountId sg) as [| | acct]; try discriminate.
  intros H. inversion H; subst. now exists acct.
Qed.

Ltac ids_done :=
  unfold keeps, well_formed_ids; cbn;
  try tauto;
  repeat match goal with
    | H : first_account _ = Some _ |- _ =>
        apply first_account_rendered in H; destruct H as [? ->]
    end;
  intros [Ha Ht]; split; eauto.

Lemma ids_load : Respects (keeps well_formed_ids) onDOMContentLoaded.
Proof. wp_run; ids_done. Qed.

Lemma ids_click fromString b :
  Respects (keeps well_formed_ids) (listener_of fromString b).
Proof. destruct b; cbn [listener_of]; wp_run; ids_done. Qed.

(** X4. In every state the page can reach, [accountId] is empty or the
    string form of an account identifier, and [topicId] is empty or the
    string form of a topic identifier: the script never stores anything else
    in them (no prompt, no error text, no partial value). *)
Theorem ids_well_formed (fromString : string -> JsError + TopicId) rt :
  reachable fromString rt -> well_formed_ids (rt_state rt).
Proof.
  intros Hrt.
  assert (Hsig : forall s l, keeps well_formed_ids s (set_signers l s))
    by (intros; ids_done).
  assert (Hin : forall s v,
             keeps well_formed_ids s (set_dom (type_message v (dom s)) s))
    by (intros; ids_done).
  destruct (reachable_ok fromString (keeps well_formed_ids)
              (keeps_refl _) (keeps_trans _) ids_load
              (ids_click fromString) Hsig Hin rt Hrt) as [[d Hd] _].
  apply Hd. split; now left.
Qed.

Lemma ids_well_formed_witness :
  well_formed_ids
    (rt_state (page_after parse_TopicId demo_page (demo_load ++ demo_create))).
Proof.
  apply (ids_well_formed parse_TopicId). apply page_after_reachable.
Defined.

(** ** What the connection flow leaves alone *)

Lemma same_topic_trans a b c : same_topic a b -> same_topic b c -> same_topic a c.
Proof. unfold same_topic. congruence. Qed.

Lemma same_listeners_trans a b c :
  same_listeners a b -> same_listeners b c -> same_listeners a c.
Proof. unfold same_listeners. congruence. Qed.

Lemma connect_click_topic s :
  wp same_topic (fun s0 _ s1 => same_topic s0 s1) (fun s0 _ s1 => same_topic s0 s1)
     s (onDisconnectButtonClick s).
Proof. wp_run; reflexivity. Qed.

Lemma load_topic s :
  wp same_topic (fun s0 _ s1 => same_topic s0 s1) (fun s0 _ s1 => same_topic s0 s1)
     s (onDOMContentLoaded s).
Proof. wp_run; reflexivity. Qed.

(** X5. Connecting, disconnecting and the page-load synchronization never
    write the topic variable: every atomic segment of the connect/disconnect
    click listener and of the page-load handler leaves [topicId] as it was,
    so a topic survives a disconnect and a reconnect. *)
Theorem connection_keeps_topic :
  (forall s script,
      Forall (fun seg => same_topic (fst seg) (snd seg))
             (segments onDisconnectButtonClick s script))
  /\ (forall s script,
        Forall (fun seg => same_topic (fst seg) (snd seg))
               (segments onDOMContentLoaded s script))
  /\ (forall s outcomes,
        topicId (fst (drive (onDisconnectButtonClick s) (alone outcomes)))
        = topicId s).
Proof.
  split; [| split].
  - intros s script.
    apply (wp_segments same_topic _ _ (fun _ _ _ H => H) (fun _ _ _ H => H)).
    apply connect_click_topic.
  - intros s script.
    apply (wp_segments same_topic _ _ (fun _ _ _ H => H) (fun _ _ _ H => H)).
    apply load_topic.
  - intros s outcomes.
    apply (wp_drive same_topic _ _ (fun _ _ _ H => H) (fun _ _ _ H => H)
             same_topic_trans (alone outcomes) s _ (connect_click_topic s)).
    apply alone_respects. reflexivity.
Qed.

Lemma click_listeners fromString b s :
  wp same_listeners (fun s0 _ s1 => same_listeners s0 s1)
     (fun s0 _ s1 => same_listeners s0 s1) s (listener_of fromString b s).
Proof. destruct b; cbn [listener_of]; wp_run; reflexivity. Qed.

(** X6. Only the page-load handler registers listeners: no atomic segment
    of any click listener changes the list of registered listeners, so a
    click never makes a later click run a handler more or fewer times. *)
Theorem clicks_register_nothing (fromString : string -> JsError + TopicId) b :
  (forall s script,
      Forall (fun seg => same_listeners (fst seg) (snd seg))
             (segments (listener_of fromString b) s script))
  /\ (forall s outcomes,
        listeners (fst (drive (listener_of fromString b s) (alone outcomes)))
        = listeners s).
Proof.
  split.
  - intros s script.
    apply (wp_segments same_listeners _ _ (fun _ _ _ H => H) (fun _ _ _ H => H)).
    apply click_listeners.
  - intros s outcomes.
    apply (wp_drive same_listeners _ _ (fun _ _ _ H => H) (fun _ _ _ H => H)
             same_listeners_trans (alone outcomes) s _ (click_listeners fromString b s)).
    apply alone_respects. reflexivity.
Qed.

(** ** Connecting *)

Lemma drive_one {A} (c : State * Step A) f o :
  drive c [(f, o)]
  = match snd c with
    | Yield _ k => k o (f (fst c))
    | _ => c
    end.
Proof. destruct c as [s r]. destruct r; reflexivity. Qed.

(** X7. [openWalletConnectModal] first awaits the stored initialization
    promise.  When that resolves and the session is already connected, it
    only logs "Already connected." and opens no modal.  Otherwise it opens
    the modal; when the modal resolves, the run ends in exactly the state
    [syncWalletconnectState] produces, and when the modal rejects, the error
    is logged and nothing else changes. *)
Theorem open_modal_flow s f1 v1 :
  let c0 := openWalletConnectModal s in
  let pre1 := f1 (fst c0) in
  let c1 := drive c0 [(f1, Fulfilled v1)] in
  (exists p k, snd c0 = Yield p k /\ walletConnectInitPromise (fst c0) = Some p)
  /\ (isConnected pre1 = true ->
      c1 = (emit (ConsoleLog [LStr "Already connected."]) pre1, Return tt))
  /\ (isConnected pre1 = false ->
      (exists k,
          c1 = (emit (Called OpenModal (next_promise pre1)) (alloc_promise pre1),
                Yield (next_promise pre1) k))
      /\ (forall f2 v2,
            drive c1 [(f2, Fulfilled v2)] = syncWalletconnectState (f2 (fst c1)))
      /\ (forall f2 e,
            drive c1 [(f2, Rejected e)]
            = (emit (ConsoleError [LStr "Failed to open WalletConnect modal"; LErr e])
                 (f2 (fst c1)),
               Return tt))).
Proof.
  intros c0 pre1 c1. subst c1 pre1.
  split; [| split].
  - subst c0. destruct s as [acc conn top prom d sg ls np tr].
    destruct prom as [p |]; eexists _, _; split; lazy; reflexivity.
  - rewrite drive_one. generalize (f1 (fst c0)). intros s' Hc. subst c0.
    destruct s as [acc conn top prom d sg ls np tr].
    destruct s' as [acc' conn' top' prom' d' sg' ls' np' tr'].
    cbn in Hc. subst conn'.
    destruct prom as [p |]; lazy; reflexivity.
  - rewrite drive_one. generalize (f1 (fst c0)). intros s' Hc. subst c0.
    destruct s' as [acc' conn' top' prom' d' sg' ls' np' tr'].
    cbn in Hc. subst conn'.
    assert (Hk : exists k,
              match snd (openWalletConnectModal s) with
              | Yield _ k => k (Fulfilled v1)
                               {| accountId := acc'; isConnected := false;
                                  topicId := top'; walletConnectInitPromise := prom';
                                  dom := d'; signers := sg'; listeners := ls';
                                  next_promise := np'; trace := tr' |}
              | _ => openWalletConnectModal s
              end
              = ({| accountId := acc'; isConnected := false;
                    topicId := top'; walletConnectInitPromise := prom';
                    dom := d'; signers := sg'; listeners := ls';
                    next_promise := S np';
                    trace := (tr' ++ [Called OpenModal np'])%list |},
                 Yield np' k)
              /\ (forall s2 v2, k (Fulfilled v2) s2 = syncWalletconnectState s2)
              /\ (forall s2 e,
                    k (Rejected e) s2
                    = (emit (ConsoleError [LStr "Failed to open WalletConnect modal";
                                           LErr e]) s2,
                       Return tt))).
    { destruct s as [acc conn top prom d sg ls np tr].
      destruct prom as [p |]; eexists;
        (split; [lazy -[AccountId_toString truthy_string render_account];
                 reflexivity | split]).
      - intros s2 v2. destruct s2 as [a2 c2 t2 p2 d2 sg2 l2 n2 tr2].
        destruct sg2 as [| [[| | acct]] rest];
          lazy -[AccountId_toString truthy_string render_account];
          rewrite ?AccountId_toString_truthy; reflexivity.
      - intros s2 e. destruct s2. lazy. reflexivity.
      - intros s2 v2. destruct s2 as [a2 c2 t2 p2 d2 sg2 l2 n2 tr2].
        destruct sg2 as [| [[| | acct]] rest];
          lazy -[AccountId_toString truthy_string render_account];
          rewrite ?AccountId_toString_truthy; reflexivity.
      - intros s2 e. destruct s2. lazy. reflexivity. }
    destruct Hk as (k & Hc1 & Hok & Hrej). rewrite Hc1.
    split; [now exists k | split].
    + intros f2 v2. rewrite drive_one. cbn [fst snd]. apply Hok.
    + intros f2 e. rewrite drive_one. cbn [fst snd]. apply Hrej.
Qed.

Lemma open_modal_flow_witness :
  drive (openWalletConnectModal demo_connected) (alone [Fulfilled VUndefined])
  = (emit (ConsoleLog [LStr "Already connected."]) demo_connected, Return tt)
  /\ drive (openWalletConnectModal demo_disconnected)
       [(fun s => s, Fulfilled VUndefined);
        (set_signers [demo_signer], Fulfilled VUndefined)]
     = syncWalletconnectState
         (set_signers [demo_signer]
            (emit (Called OpenModal 1) (alloc_promise demo_disconnected))).
Proof.
  split.
  - exact (proj1 (proj2 (open_modal_flow demo_connected (fun s => s) VUndefined))
             eq_refl).
  - destruct (proj2 (proj2 (open_modal_flow demo_disconnected (fun s => s) VUndefined))
                eq_refl) as (_ & Hok & _).
    exact (Hok (set_signers [demo_signer]) VUndefined).
Defined.

(** ** Guards *)

(** X8. Disconnecting without a session is a no-op: the connector is not
    called, no promise is created, and the only effect is the console line
    "No active session to disconnect from."; the handler returns at once,
    whatever follows. *)
Theorem disconnect_without_session s script :
  isConnected s = false ->
  drive (disconnectWallet s) script
  = (emit (ConsoleLog [LStr "No active session to disconnect from."]) s, Return tt).
Proof.
  intros Hc.
  assert (Hrun : disconnectWallet s
                 = (emit (ConsoleLog [LStr "No active session to disconnect from."]) s,
                    Return tt)).
  { destruct s as [acc conn top prom d sg ls np tr]. cbn in Hc. subst conn.
    reflexivity. }
  rewrite Hrun. apply drive_finished. exact I.
Qed.

Lemma disconnect_without_session_witness :
  fst (drive (disconnectWallet demo_disconnected) (alone [Fulfilled VUndefined]))
  = emit (ConsoleLog [LStr "No active session to disconnect from."]) demo_disconnected.
Proof.
  rewrite (disconnect_without_session demo_disconnected
             (alone [Fulfilled VUndefined]) eq_refl).
  reflexivity.
Defined.

(** X9. Submit-message checks its preconditions in order and stops at the
    first that fails, each time only logging and writing a prompt to the
    message status: not connected gives "Connect a wallet first!"; connected
    without a topic gives "No topic to submit to—create a topic first!";
    connected with a topic but with a missing or empty message input gives
    "Please enter a message first.".  In none of the three is the topic
    identifier parsed, a transaction built or a promise created. *)
Theorem submit_preconditions (fromString : string -> JsError + TopicId) s :
  let stop (prompt logged : string) : State * Step unit :=
    (set_dom (render_status prompt (dom s)) (emit (ConsoleError [LStr logged]) s),
     Return tt) in
  (isConnected s = false ->
   handleTopicMessageSubmission fromString s
   = stop "Connect a wallet first!" "Connect wallet first!")
  /\ (isConnected s = true -> topicId s = EmptyString ->
      handleTopicMessageSubmission fromString s
      = stop "No topic to submit to—create a topic first!"
             "No topicId found—create a topic first!")
  /\ (isConnected s = true -> topicId s <> EmptyString ->
      el_messageInput (dom s) = None \/ el_messageInput (dom s) = Some EmptyString ->
      handleTopicMessageSubmission fromString s
      = stop "Please enter a message first." "No message provided.").
Proof.
  intros stop. subst stop.
  destruct s as [acc conn top prom d sg ls np tr].
  destruct d as [e1 e2 e3 e4 e5 e6 e7]. cbn.
  split; [| split].
  - intros ->. reflexivity.
  - intros -> ->. reflexivity.
  - intros -> Ht [-> | ->]; (destruct top; [now elim Ht | reflexivity]).
Qed.

Lemma submit_preconditions_witness :
  el_messageStatus
    (dom (fst (handleTopicMessageSubmission parse_TopicId demo_disconnected)))
  = Some "Connect a wallet first!"
  /\ el_messageStatus
       (dom (fst (handleTopicMessageSubmission parse_TopicId
                    (set_topicId EmptyString demo_connected))))
     = Some "No topic to submit to—create a topic first!"
  /\ sdk_events (fst (handleTopicMessageSubmission parse_TopicId
                        (set_dom (type_message EmptyString demo_page) demo_connected)))
     = sdk_events demo_connected.
Proof.
  split; [| split].
  - rewrite (proj1 (submit_preconditions parse_TopicId demo_disconnected) eq_refl).
    reflexivity.
  - rewrite (proj1 (proj2 (submit_preconditions parse_TopicId
                             (set_topicId EmptyString demo_connected)))
               eq_refl eq_refl).
    reflexivity.
  - rewrite (proj2 (proj2 (submit_preconditions parse_TopicId
                             (set_dom (type_message EmptyString demo_page)
                                demo_connected)))
               eq_refl).
    + reflexivity.
    + discriminate.
    + right. reflexivity.
Defined.

(** ** The three-step protocol *)

Lemma drive_yield {A} (s : State) p (k : Outcome -> State -> State * Step A) f o :
  drive (s, Yield p k) [(f, o)] = k o (f s).
Proof. reflexivity. Qed.

(** The continuations of a create-topic run, one [await] after the other. *)
Lemma create_chain s :
  isConnected s = true ->
  let tx := TopicCreateTransaction "Hello from Vanilla JS!" in
  let signer := hd_error (signers s) in
  exists k1,
    handleTopicCreation s
    = (emit (Called (FreezeWithSigner tx signer) (next_promise s))
         (alloc_promise (emit (Built tx) s)),
       Yield (next_promise s) k1)
    /\ forall s1,
        (forall e, k1 (Rejected e) s1 = (creation_error_state e s1, Return tt))
        /\ forall v1, exists k2,
            k1 (Fulfilled v1) s1
            = (emit (Called (ExecuteWithSigner tx signer) (next_promise s1))
                 (alloc_promise s1),
               Yield (next_promise s1) k2)
            /\ forall s2,
                (forall e, k2 (Rejected e) s2 = (creation_error_state e s2, Return tt))
                /\ (forall v e,
                      as_response v = inl e ->
                      k2 (Fulfilled v) s2
                      = (creation_error_state e
                           (emit (ConsoleLog
                                    [LStr "Topic creation transaction result:"; LVal v])
                                 s2),
                         Return tt))
                /\ forall r, exists k3,
                    k2 (Fulfilled (VResponse r)) s2
                    = (emit (Called (GetReceiptWithSigner r signer)
                               (next_promise
                                  (emit (ConsoleLog
                                           [LStr "Topic creation transaction result:";
                                            LVal (VResponse r)]) s2)))
                         (alloc_promise
                            (emit (ConsoleLog
                                     [LStr "Topic creation transaction result:";
                                      LVal (VResponse r)]) s2)),
                       Yield (next_promise s2) k3)
                    /\ forall s3 e,
                        k3 (Rejected e) s3 = (creation_error_state e s3, Return tt).
Proof.
  intros Hc tx signer. subst tx signer.
  destruct s as [acc conn top prom d sg ls np tr]. cbn in Hc. subst conn.
  eexists. split; [lazy; reflexivity |].
  intros s1. destruct s1 as [acc1 conn1 top1 prom1 d1 sg1 ls1 np1 tr1].
  split; [intros e; lazy; reflexivity |].
  intros v1. eexists. split; [lazy; reflexivity |].
  intros s2. destruct s2 as [acc2 conn2 top2 prom2 d2 sg2 ls2 np2 tr2].
  split; [intros e; lazy; reflexivity | split].
  - intros v e Hv. destruct v; cbn in Hv; inversion Hv; subst; lazy; reflexivity.
  - intros r. eexists. split; [lazy; reflexivity |].
    intros s3 e. destruct s3. lazy. reflexivity.
Qed.

(** X10. A create-topic run follows the SDK's protocol strictly: the
    transaction with the fixed memo is built and frozen at the click; it is
    executed only once the freeze has resolved, and the receipt is fetched,
    from the response of the execution, only once that has resolved.  All
    three calls carry the signer that was first when the button was clicked,
    whatever happens to the signers meanwhile, and each step awaits the
    promise of the call just made. *)
Theorem create_topic_protocol s f1 f2 v1 r :
  isConnected s = true ->
  let tx := TopicCreateTransaction "Hello from Vanilla JS!" in
  let signer := hd_error (signers s) in
  let c0 := handleTopicCreation s in
  let pre1 := f1 (fst c0) in
  let c1 := drive c0 [(f1, Fulfilled v1)] in
  let pre2 := f2 (fst c1) in
  let c2 := drive c1 [(f2, Fulfilled (VResponse r))] in
  (trace (fst c0)
   = (trace s ++ [Built tx; Called (FreezeWithSigner tx signer) (next_promise s)])%list
   /\ exists k, snd c0 = Yield (next_promise s) k)
  /\ (trace (fst c1)
      = (trace pre1 ++ [Called (ExecuteWithSigner tx signer) (next_promise pre1)])%list
      /\ exists k, snd c1 = Yield (next_promise pre1) k)
  /\ (trace (fst c2)
      = (trace pre2
         ++ [ConsoleLog [LStr "Topic creation transaction result:"; LVal (VResponse r)];
             Called (GetReceiptWithSigner r signer) (next_promise pre2)])%list
      /\ exists k, snd c2 = Yield (next_promise pre2) k).
Proof.
  intros Hc tx signer c0 pre1 c1 pre2 c2.
  destruct (create_chain s Hc) as (k1 & H0 & Hk1).
  fold tx signer in H0, Hk1.
  assert (E0 : c0 = (emit (Called (FreezeWithSigner tx signer) (next_promise s))
                       (alloc_promise (emit (Built tx) s)),
                     Yield (next_promise s) k1)) by exact H0.
  destruct (Hk1 pre1) as (_ & Hv1). destruct (Hv1 v1) as (k2 & H1 & Hk2).
  assert (E1 : c1 = (emit (Called (ExecuteWithSigner tx signer) (next_promise pre1))
                       (alloc_promise pre1),
                     Yield (next_promise pre1) k2)).
  { subst c1 pre1. rewrite E0 in *. rewrite drive_yield. exact H1. }
  destruct (Hk2 pre2) as (_ & _ & Hr). destruct (Hr r) as (k3 & H2 & _).
  assert (E2 : c2 = (emit (Called (GetReceiptWithSigner r signer)
                             (next_promise
                                (emit (ConsoleLog
                                         [LStr "Topic creation transaction result:";
                                          LVal (VResponse r)]) pre2)))
                       (alloc_promise
                          (emit (ConsoleLog
                                   [LStr "Topic creation transaction result:";
                                    LVal (VResponse r)]) pre2)),
                     Yield (next_promise pre2) k3)).
  { subst c2 pre2. rewrite E1 in *. rewrite drive_yield. exact H2. }
  rewrite E0, E1, E2. cbn [fst snd].
  split; [| split].
  - split; [cbn; now rewrite <- app_assoc | now exists k1].
  - split; [reflexivity | now exists k2].
  - split; [cbn; now rewrite <- app_assoc | now exists k3].
Qed.

Lemma create_topic_protocol_witness :
  sdk_events
    (fst (drive (handleTopicCreation demo_connected)
            [(set_signers [], Fulfilled VUndefined);
             (fun s => s, Fulfilled (VResponse demo_response))]))
  = (let tx := TopicCreateTransaction "Hello from Vanilla JS!" in
     [Built tx;
      Called (FreezeWithSigner tx (Some demo_signer)) 1;
      Called (ExecuteWithSigner tx (Some demo_signer)) 2;
      Called (GetReceiptWithSigner demo_response (Some demo_signer)) 3]).
Proof.
  pose proof (create_topic_protocol demo_connected (set_signers []) (fun s => s)
                VUndefined demo_response eq_refl) as H.
  cbv zeta in H. destruct H as (_ & _ & Htrace & _).
  unfold sdk_events.
  change (drive (handleTopicCreation demo_connected)
            [(set_signers [], Fulfilled VUndefined);
             (fun s : State => s, Fulfilled (VResponse demo_response))])
    with (drive (drive (handleTopicCreation demo_connected)
                   [(set_signers [], Fulfilled VUndefined)])
            [(fun s : State => s, Fulfilled (VResponse demo_response))]).
  rewrite Htrace. reflexivity.
Defined.



(** The continuations of a submit-message run up to the receipt. *)
Lemma submit_chain (fromString : string -> JsError + TopicId) s msg t :
  isConnected s = true ->
  topicId s <> EmptyString ->
  el_messageInput (dom s) = Some msg ->
  msg <> EmptyString ->
  fromString (topicId s) = inr t ->
  let tx := TopicMessageSubmitTransaction t msg in
  let signer := hd_error (signers s) in
  exists k1,
    handleTopicMessageSubmission fromString s
    = (emit (Called (FreezeWithSigner tx signer) (next_promise s))
         (alloc_promise (emit (Built tx) s)),
       Yield (next_promise s) k1)
    /\ forall s1,
        (forall e, k1 (Rejected e) s1 = (submit_error_state e s1, Return tt))
        /\ forall v1, exists k2,
            k1 (Fulfilled v1) s1
            = (emit (Called (ExecuteWithSigner tx signer) (next_promise s1))
                 (alloc_promise s1),
               Yield (next_promise s1) k2)
            /\ forall s2,
                (forall e, k2 (Rejected e) s2 = (submit_error_state e s2, Return tt))
                /\ (forall v e,
                      as_response v = inl e ->
                      k2 (Fulfilled v) s2
                      = (submit_error_state e
                           (emit (ConsoleLog
                                    [LStr "Message submission transaction result:";
                                     LVal v])
                                 s2),
                         Return tt))
                /\ forall r, exists k3,
                    k2 (Fulfilled (VResponse r)) s2
                    = (emit (Called (GetReceiptWithSigner r signer) (next_promise s2))
                         (alloc_promise
                            (emit (ConsoleLog
                                     [LStr "Message submission transaction result:";
                                      LVal (VResponse r)]) s2)),
                       Yield (next_promise s2) k3)
                    /\ forall s3 e,
                        k3 (Rejected e) s3 = (submit_error_state e s3, Return tt).
Proof.
  intros Hc Ht Hm Hmsg Hp tx signer. subst tx signer.
  destruct s as [acc conn top prom d sg ls np tr].
  destruct d as [e1 e2 e3 e4 e5 e6 e7]. cbn in Hc, Ht, Hm, Hp. subst conn e5.
  destruct top as [| c0 top]; [now elim Ht |].
  destruct msg as [| c1 msg]; [now elim Hmsg |].
  eexists. split.
  { lazy -[app]. rewrite Hp. lazy -[app]. reflexivity. }
  intros s1. destruct s1 as [acc1 conn1 top1 prom1 d1 sg1 ls1 np1 tr1].
  split; [intros e; lazy; reflexivity |].
  intros v1. eexists. split; [lazy; reflexivity |].
  intros s2. destruct s2 as [acc2 conn2 top2 prom2 d2 sg2 ls2 np2 tr2].
  split; [intros e; lazy; reflexivity | split].
  - intros v e Hv. destruct v; cbn in Hv; inversion Hv; subst; lazy; reflexivity.
  - intros r. eexists. split; [lazy; reflexivity |].
    intros s3 e. destruct s3. lazy. reflexivity.
Qed.

(** X12. A submit-message run that passes its checks parses the stored
    topic identifier, builds the transaction with the message that was in
    the input at the click, and then freezes, executes and fetches the
    receipt strictly one after the other.  The message, the topic and the
    signer of all three calls are those of the click: typing a new message,
    creating another topic or a change of signers while the run is suspended
    does not affect the transaction under way. *)
Theorem submit_message_protocol (fromString : string -> JsError + TopicId)
    s msg t f1 f2 v1 r :
  isConnected s = true ->
  topicId s <> EmptyString ->
  el_messageInput (dom s) = Some msg ->
  msg <> EmptyString ->
  fromString (topicId s) = inr t ->
  let tx := TopicMessageSubmitTransaction t msg in
  let signer := hd_error (signers s) in
  let c0 := handleTopicMessageSubmission fromString s in
  let pre1 := f1 (fst c0) in
  let c1 := drive c0 [(f1, Fulfilled v1)] in
  let pre2 := f2 (fst c1) in
  let c2 := drive c1 [(f2, Fulfilled (VResponse r))] in
  (trace (fst c0)
   = (trace s ++ [Built tx; Called (FreezeWithSigner tx signer) (next_promise s)])%list
   /\ exists k, snd c0 = Yield (next_promise s) k)
  /\ (trace (fst c1)
      = (trace pre1 ++ [Called (ExecuteWithSigner tx signer) (next_promise pre1)])%list
      /\ exists k, snd c1 = Yield (next_promise pre1) k)
  /\ (trace (fst c2)
      = (trace pre2
         ++ [ConsoleLog [LStr "Message submission transaction result:";
                         LVal (VResponse r)];
             Called (GetReceiptWithSigner r signer) (next_promise pre2)])%list
      /\ exists k, snd c2 = Yield (next_promise pre2) k).
Proof.
  intros Hc Ht Hm Hmsg Hp tx signer c0 pre1 c1 pre2 c2.
  destruct (submit_chain fromString s msg t Hc Ht Hm Hmsg Hp) as (k1 & H0 & Hk1).
  fold tx signer in H0, Hk1.
  assert (E0 : c0 = (emit (Called (FreezeWithSigner tx signer) (next_promise s))
                       (alloc_promise (emit (Built tx) s)),
                     Yield (next_promise s) k1)) by exact H0.
  destruct (Hk1 pre1) as (_ & Hv1). destruct (Hv1 v1) as (k2 & H1 & Hk2).
  assert (E1 : c1 = (emit (Called (ExecuteWithSigner tx signer) (next_promise pre1))
                       (alloc_promise pre1),
                     Yield (next_promise pre1) k2)).
  { subst c1 pre1. rewrite E0 in *. rewrite drive_yield. exact H1. }
  destruct (Hk2 pre2) as (_ & _ & Hr). destruct (Hr r) as (k3 & H2 & _).
  assert (E2 : c2 = (emit (Called (GetReceiptWithSigner r signer) (next_promise pre2))
                       (alloc_promise
                          (emit (ConsoleLog
                                   [LStr "Message submission transaction result:";
                                    LVal (VResponse r)]) pre2)),
                     Yield (next_promise pre2) k3)).
  { subst c2 pre2. rewrite E1 in *. rewrite drive_yield. exact H2. }
  rewrite E0, E1, E2. cbn [fst snd].
  split; [| split].
  - split; [cbn; now rewrite <- app_assoc | now exists k1].
  - split; [reflexivity | now exists k2].
  - split; [cbn; now rewrite <- app_assoc | now exists k3].
Qed.

Lemma submit_message_protocol_witness :
  sdk_events
    (fst (drive (handleTopicMessageSubmission parse_TopicId demo_connected)
            [(fun s => set_topicId "0.0.9"
                         (set_dom (type_message "other" (dom s)) s),
              Fulfilled VUndefined);
             (set_signers [], Fulfilled (VResponse demo_response))]))
  = (let tx := TopicMessageSubmitTransaction demo_topic "hello" in
     [Built tx;
      Called (FreezeWithSigner tx (Some demo_signer)) 1;
      Called (ExecuteWithSigner tx (Some demo_signer)) 2;
      Called (GetReceiptWithSigner demo_response (Some demo_signer)) 3]).
Proof.
  pose proof (submit_message_protocol parse_TopicId demo_connected "hello" demo_topic
                (fun s => set_topicId "0.0.9"
                            (set_dom (type_message "other" (dom s)) s))
                (set_signers []) VUndefined demo_response) as H.
  cbv zeta in H.
  destruct H as (_ & _ & Htrace & _);
    [reflexivity | discriminate | reflexivity | discriminate | reflexivity |].
  unfold sdk_events.
  change (drive (handleTopicMessageSubmission parse_TopicId demo_connected)
            [(fun s => set_topicId "0.0.9"
                         (set_dom (type_message "other" (dom s)) s),
              Fulfilled VUndefined);
             (set_signers [], Fulfilled (VResponse demo_response))])
    with (drive (drive (handleTopicMessageSubmission parse_TopicId demo_connected)
                   [(fun s => set_topicId "0.0.9"
                                (set_dom (type_message "other" (dom s)) s),
                     Fulfilled VUndefined)])
            [(set_signers [], Fulfilled (VResponse demo_response))]).
  rewrite Htrace. reflexivity.
Defined.



(** ** Page load *)

Lemma sync_elements s : same_elements (dom s) (dom (fst (syncWalletconnectState s))).
Proof.
  destruct (sync_spec s) as (_ & _ & Hyes & Hno). cbv zeta in Hyes, Hno.
  destruct (first_account (signers s)) as [a |] eqn:Ha.
  - destruct (Hyes a eq_refl) as (_ & _ & -> & _). apply render_account_elements.
  - destruct (Hno eq_refl) as (_ & _ & -> & _). apply render_account_elements.
Qed.

Lemma buttons_of_same d d' : same_elements d d' -> buttons_of d' = buttons_of d.
Proof.
  intros (_ & H2 & _ & _ & _ & H6 & H7). unfold buttons_of. cbn.
  rewrite H6, H7.
  destruct (el_disconnectButton d), (el_disconnectButton d'); try discriminate;
    reflexivity.
Qed.

Lemma load_chain s :
  exists p k,
    onDOMContentLoaded s = (fst (onDOMContentLoaded s), Yield p k)
    /\ walletConnectInitPromise (fst (onDOMContentLoaded s)) = Some p
    /\ (forall s1 e, k (Rejected e) s1 = (s1, Raise e))
    /\ (forall s1 v,
          snd (k (Fulfilled v) s1) = Return tt
          /\ exists added,
              fst (k (Fulfilled v) s1)
              = fold_left (fun st b => add_listener b st) added
                          (fst (syncWalletconnectState s1))
              /\ added = buttons_of (dom (fst (syncWalletconnectState s1)))).
Proof.
  destruct s as [acc conn top prom d sg ls np tr].
  destruct prom as [p |]; eexists _, _;
    (split; [lazy -[AccountId_toString truthy_string render_account];
             reflexivity | split; [reflexivity | split]]).
  1, 3: intros s1 e; destruct s1; lazy; reflexivity.
  all: intros s1 v; destruct s1 as [a1 c1 t1 p1 d1 sg1 l1 n1 tr1];
    destruct d1 as [e1 e2 e3 e4 e5 e6 e7];
    destruct sg1 as [| [[| | acct]] rest];
    destruct e1, e2, e6, e7;
    (split; [lazy -[AccountId_toString truthy_string];
             rewrite ?AccountId_toString_truthy; reflexivity |]);
    eexists; (split; [| reflexivity]);
    lazy -[AccountId_toString truthy_string String.eqb app];
    rewrite ?AccountId_toString_truthy; lazy -[AccountId_toString String.eqb app];
    reflexivity.
Qed.

Lemma add_listeners_fields added : forall st,
  let st' := fold_left (fun st b => add_listener b st) added st in
  listeners st' = (listeners st ++ added)%list
  /\ accountId st' = accountId st /\ isConnected st' = isConnected st
  /\ topicId st' = topicId st /\ dom st' = dom st /\ trace st' = trace st.
Proof.
  induction added as [| b rest IH]; intros st; cbn.
  - rewrite app_nil_r. repeat split.
  - destruct (IH (add_listener b st)) as (H1 & H2 & H3 & H4 & H5 & H6).
    rewrite H1, H2, H3, H4, H5, H6. cbn. rewrite <- app_assoc. repeat split.
Qed.

Lemma sync_listeners s : listeners (fst (syncWalletconnectState s)) = listeners s.
Proof.
  unfold syncWalletconnectState, bind, gets. cbn.
  destruct (first_account (signers s)) as [a |]; [| reflexivity].
  destruct (truthy_string a); reflexivity.
Qed.

(** X14. The page-load handler awaits the initialization promise and, when
    it resolves, synchronizes with the wallet and then registers one click
    listener for each of the three buttons the page has, in the order
    connect/disconnect, create topic, submit message; a button the page
    lacks gets none.  The session variables and the display are exactly
    those [syncWalletconnectState] produces. *)
Theorem page_load_registers s f v :
  let c0 := onDOMContentLoaded s in
  let pre := f (fst c0) in
  let c1 := drive c0 [(f, Fulfilled v)] in
  let synced := fst (syncWalletconnectState pre) in
  (exists p k, snd c0 = Yield p k /\ walletConnectInitPromise (fst c0) = Some p)
  /\ snd c1 = Return tt
  /\ listeners (fst c1) = (listeners pre ++ buttons_of (dom pre))%list
  /\ accountId (fst c1) = accountId synced
  /\ isConnected (fst c1) = isConnected synced
  /\ dom (fst c1) = dom synced
  /\ topicId (fst c1) = topicId pre.
Proof.
  intros c0 pre c1 synced.
  destruct (load_chain s) as (p & k & H0 & Hp & _ & Hok).
  fold c0 in H0, Hp.
  assert (E1 : c1 = k (Fulfilled v) pre).
  { subst c1 pre. rewrite H0. apply drive_yield. }
  destruct (Hok pre v) as (Hret & added & Hst & Hadded).
  fold synced in Hst, Hadded.
  destruct (add_listeners_fields added synced) as (L1 & L2 & L3 & L4 & L5 & _).
  cbv zeta in L1, L2, L3, L4, L5. rewrite <- Hst, <- E1 in L1, L2, L3, L4, L5.
  split; [exists p, k; split; [now rewrite H0 | exact Hp] |].
  split; [now rewrite E1 |].
  split; [| split; [exact L2 | split; [exact L3 | split; [exact L5 |]]]].
  - rewrite L1, Hadded. subst synced. rewrite sync_listeners.
    f_equal. apply buttons_of_same, sync_elements.
  - rewrite L4. subst synced. now destruct (sync_spec pre) as (_ & -> & _).
Qed.

Example page_load_without_submit_button :
  listeners
    (fst (drive (onDOMContentLoaded
                   (initial_state
                      {| el_accountId := Some EmptyString;
                         el_disconnectButton := Some EmptyString;
                         el_topicIdDisplay := None; el_messageStatus := None;
                         el_messageInput := None;
                         el_createTopicButton := true;
                         el_submitMessageButton := false |}))
            (alone [Fulfilled VUndefined])))
  = [disconnectButton; createTopicButton].
Proof. vm_compute. reflexivity. Qed.

(** X15. A failed initialization is not caught: the page-load handler
    rejects with the error of [init], without synchronizing and without
    registering a listener.  A loaded page with no listener and nothing
    pending then stays as it is for ever: no handler can run, the three
    variables, the listeners and the trace never change again. *)
Theorem failed_load_is_final (fromString : string -> JsError + TopicId) :
  (forall s f e,
      drive (onDOMContentLoaded s) [(f, Rejected e)]
      = (f (fst (onDOMContentLoaded s)), Raise e))
  /\ (forall rt rt',
        rt_loaded rt = true ->
        rt_pool rt = [] ->
        listeners (rt_state rt) = [] ->
        steps fromString rt rt' ->
        rt_pool rt' = []
        /\ listeners (rt_state rt') = []
        /\ same_globals (rt_state rt) (rt_state rt')
        /\ trace (rt_state rt') = trace (rt_state rt)).
Proof.
  split.
  - intros s f e. destruct (load_chain s) as (p & k & H0 & _ & Hrej & _).
    rewrite H0 at 1. rewrite drive_yield. apply Hrej.
  - intros rt rt' Hl Hp Hn Hsteps.
    assert (H : rt_loaded rt' = true /\ rt_pool rt' = []
                /\ listeners (rt_state rt') = []
                /\ same_globals (rt_state rt) (rt_state rt')
                /\ trace (rt_state rt') = trace (rt_state rt)).
    { induction Hsteps as [rt | rt1 rt2 rt3 H12 IH H23].
      - unfold same_globals. tauto.
      - destruct (IH Hl Hp Hn) as (Hl2 & Hp2 & Hn2 & Hg & Ht).
        destruct H23 as [rt2 Hf | rt2 b Hb | rt2 p o Hlt Hs
                        | rt2 before after p k o Hk Hs | rt2 l | rt2 v].
        + congruence.
        + rewrite Hn2 in Hb. destruct Hb.
        + unfold same_globals in *. cbn. tauto.
        + rewrite Hp2 in Hk. destruct before; discriminate.
        + unfold same_globals in *. cbn. tauto.
        + unfold same_globals in *. cbn. tauto. }
    tauto.
Qed.

Lemma failed_load_is_final_witness :
  let failed := page_after parse_TopicId demo_page
                  [ALoad; ASettle 0 (Rejected boom); AResume 0] in
  let later := page_after parse_TopicId demo_page
                 ([ALoad; ASettle 0 (Rejected boom); AResume 0]
                  ++ [ASigners [demo_signer]; AInput "hi"]) in
  trace (rt_state failed) = [Called Init 0; UnhandledRejection boom]
  /\ listeners (rt_state later) = []
  /\ isConnected (rt_state later) = false.
Proof.
  cbv zeta.
  destruct (proj2 (failed_load_is_final parse_TopicId)
              (page_after parse_TopicId demo_page
                 [ALoad; ASettle 0 (Rejected boom); AResume 0])
              (page_after parse_TopicId demo_page
                 ([ALoad; ASettle 0 (Rejected boom); AResume 0]
                  ++ [ASigners [demo_signer]; AInput "hi"])))
    as (_ & Hn & (_ & Hc & _) & _).
  - reflexivity.
  - reflexivity.
  - reflexivity.
  - apply page_after_steps. vm_compute. discriminate.
  - split; [reflexivity | split; [exact Hn | rewrite Hc; reflexivity]].
Defined.

(** ** How the operations compose *)

Lemma render_account_twice v d :
  render_account v (render_account v d) = render_account v d.
Proof.
  unfold render_account.
  destruct (el_accountId d) eqn:H1, (el_disconnectButton d) eqn:H2; cbn;
    rewrite ?H1, ?H2; reflexivity.
Qed.

Lemma sync_signers s : signers (fst (syncWalletconnectState s)) = signers s.
Proof.
  unfold syncWalletconnectState, bind, gets. cbn.
  destruct (first_account (signers s)) as [a |]; [| reflexivity].
  destruct (truthy_string a); reflexivity.
Qed.

(** X16. Synchronizing twice in a row is the same as once: the session
    variables, the topic and the page after the second run are those after
    the first (only the console gets a second line). *)
Theorem sync_idempotent s :
  let once := fst (syncWalletconnectState s) in
  let twice := fst (syncWalletconnectState once) in
  accountId twice = accountId once
  /\ isConnected twice = isConnected once
  /\ topicId twice = topicId once
  /\ dom twice = dom once.
Proof.
  intros once twice. subst twice.
  destruct (sync_spec s) as (_ & _ & Hyes1 & Hno1).
  destruct (sync_spec once) as (_ & Ht & Hyes2 & Hno2).
  fold once in Hyes1, Hno1. cbv zeta in Hyes2, Hno2, Ht.
  assert (Hs : signers once = signers s) by apply sync_signers.
  rewrite Hs in Hyes2, Hno2.
  destruct (first_account (signers s)) as [a |].
  - destruct (Hyes1 a eq_refl) as (C1 & A1 & D1 & _).
    destruct (Hyes2 a eq_refl) as (C2 & A2 & D2 & _).
    rewrite C1, A1, C2, A2, D2, D1, Ht, render_account_twice. repeat split.
  - destruct (Hno1 eq_refl) as (C1 & A1 & D1 & _).
    destruct (Hno2 eq_refl) as (C2 & A2 & D2 & _).
    rewrite C1, A1, C2, A2, D2, D1, Ht, render_account_twice. repeat split.
Qed.

(** X17. A disconnect that succeeds leaves the session variables, the topic
    and the page exactly as a synchronization that finds no signer would:
    disconnected, no account, "No account connected" displayed and the
    button labelled "Connect to WalletConnect". *)
Theorem disconnect_matches_sync s f v :
  isConnected s = true ->
  let pre := f (fst (disconnectWallet s)) in
  let after := fst (drive (disconnectWallet s) [(f, Fulfilled v)]) in
  let reference := fst (syncWalletconnectState (set_signers [] pre)) in
  accountId after = accountId reference
  /\ isConnected after = isConnected reference
  /\ topicId after = topicId reference
  /\ dom after = dom reference.
Proof.
  intros Hc pre after reference. subst after reference pre.
  rewrite drive_one. generalize (f (fst (disconnectWallet s))). intros s'.
  destruct s as [acc conn top prom d sg ls np tr]. cbn in Hc. subst conn.
  destruct s' as [acc' conn' top' prom' d' sg' ls' np' tr'].
  lazy -[render_account]. repeat split.
Qed.

Lemma disconnect_matches_sync_witness :
  let after := fst (drive (disconnectWallet demo_connected)
                      (alone [Fulfilled VUndefined])) in
  isConnected after = false
  /\ el_disconnectButton (dom after) = Some "Connect to WalletConnect".
Proof.
  cbv zeta.
  destruct (disconnect_matches_sync demo_connected (fun s => s) VUndefined eq_refl)
    as (_ & Hc & _ & Hd).
  cbv zeta in Hc, Hd. unfold alone, map. rewrite Hc, Hd. split; reflexivity.
Defined.

(** X18. The success text of a submission names the topic variable as it is
    when the receipt arrives, while the message was sent to the topic that
    was stored at the click: when another topic is created in between, the
    page reports the new topic for a message that went to the old one. *)
Theorem submit_success_names_current_topic (fromString : string -> JsError + TopicId)
    s msg t f1 f2 f3 v r rc :
  isConnected s = true ->
  topicId s <> EmptyString ->
  el_messageInput (dom s) = Some msg ->
  msg <> EmptyString ->
  fromString (topicId s) = inr t ->
  template Status_toString (receipt_status rc) = "SUCCESS" ->
  let c0 := handleTopicMessageSubmission fromString s in
  let before := drive c0 [(f1, Fulfilled v); (f2, Fulfilled (VResponse r))] in
  let after := drive c0 [(f1, Fulfilled v); (f2, Fulfilled (VResponse r));
                         (f3, Fulfilled (VReceipt rc))] in
  let pre := f3 (fst before) in
  In (Built (TopicMessageSubmitTransaction t msg)) (trace (fst c0))
  /\ dom (fst after)
     = render_status (message_submitted_html (topicId pre)) (dom pre)
  /\ contains ("Message submitted to topic " ++ topicId pre ++ " successfully!")
              (message_submitted_html (topicId pre)).
Proof.
  intros Hc Ht Hm Hmsg Hp Hs c0 before after pre.
  destruct (submit_after_receipt fromString s msg t f1 f2 f3 v r rc
              Hc Ht Hm Hmsg Hp) as (_ & Hdom & _).
  cbv zeta in Hdom. rewrite Hs, String.eqb_refl in Hdom.
  destruct (submit_chain fromString s msg t Hc Ht Hm Hmsg Hp) as (k1 & H0 & _).
  cbv zeta in H0.
  split; [| split].
  - subst c0. rewrite H0. cbn. apply in_or_app. left.
    apply in_or_app. right. now left.
  - exact Hdom.
  - unfold message_submitted_html.
    exists (nl ++ "        "),
      (nl ++ "        <br/><br/>" ++ nl ++ hashscan_anchor (hashscan_link (topicId pre))).
    cbn. now rewrite !append_assoc3.
Qed.

Lemma submit_success_names_current_topic_witness :
  let run := drive (handleTopicMessageSubmission parse_TopicId demo_connected)
               [(fun s => s, Fulfilled VUndefined);
                (set_topicId "0.0.9", Fulfilled (VResponse demo_response));
                (fun s => s, Fulfilled (VReceipt demo_receipt))] in
  el_messageStatus (dom (fst run)) = Some (message_submitted_html "0.0.9")
  /\ In (Built (TopicMessageSubmitTransaction demo_topic "hello")) (trace (fst run)).
Proof.
  pose proof (submit_success_names_current_topic parse_TopicId demo_connected "hello"
                demo_topic (fun s => s) (set_topicId "0.0.9") (fun s => s)
                VUndefined demo_response demo_receipt) as H.
  cbv zeta in H.
  destruct H as (_ & Hdom & _);
    [reflexivity | discriminate | reflexivity | discriminate | reflexivity
    | reflexivity |].
  cbv zeta. split.
  - rewrite Hdom. reflexivity.
  - vm_compute. tauto.
Defined.

(** ** One listener per button *)

Lemma click_respects_listeners fromString b :
  Respects same_listeners (listener_of fromString b).
Proof. destruct b; cbn [listener_of]; wp_run; reflexivity. Qed.

Lemma load_registers_once s :
  exists p k,
    onDOMContentLoaded s = (fst (onDOMContentLoaded s), Yield p k)
    /\ listeners (fst (onDOMContentLoaded s)) = listeners s
    /\ registers_once k.
Proof.
  destruct (load_chain s) as (p & k & H0 & _ & Hrej & Hok).
  exists p, k. split; [exact H0 | split].
  - destruct s as [acc conn top prom d sg ls np tr]. destruct prom; reflexivity.
  - intros o s1 Hl. destruct o as [v | e].
    + destruct (Hok s1 v) as (Hret & added & Hst & Hadded).
      rewrite Hret. split; [exact I |]. right.
      rewrite Hst.
      destruct (add_listeners_fields added (fst (syncWalletconnectState s1)))
        as (L1 & _).
      cbv zeta in L1. rewrite L1, sync_listeners, Hl, Hadded. cbn [app].
      apply buttons_of_same, sync_elements.
    + rewrite Hrej. cbn. split; [exact I | now left].
Qed.

Lemma step_phase (fromString : string -> JsError + TopicId) d rt rt' :
  step fromString rt rt' ->
  same_elements d (dom (rt_state rt)) ->
  page_phase d rt ->
  page_phase d rt'.
Proof.
  intros Hstep Hd Hphase.
  destruct Hstep as [rt Hf | rt b Hb | rt p o Hlt Hs
                    | rt before after p k o Hk Hs | rt l | rt v].
  - (* page load *)
    destruct Hphase as [(_ & Hp & Hl) | [(Ht & _) | (Ht & _)]]; try congruence.
    destruct (load_registers_once (rt_state rt)) as (p & k & H0 & Hl0 & Hk).
    right. left. unfold conclude. rewrite H0. cbn.
    split; [reflexivity | split; [congruence |]].
    exists p, k. rewrite Hp. now split.
  - (* click *)
    destruct Hphase as [(_ & _ & Hl) | [(_ & Hl & _) | (Ht & Hl & Hp)]];
      try (rewrite Hl in Hb; now destruct Hb).
    right. right.
    destruct (conclude_ok same_listeners (rt_state rt)
                (listener_of fromString b (rt_state rt))
                (rt_pool rt) (rt_settled rt) (rt_loaded rt)
                (click_respects_listeners fromString b (rt_state rt)) Hp)
      as [Hsame Hpool].
    unfold same_listeners in Hsame. rewrite Hsame.
    split; [| split; [exact Hl | exact Hpool]].
    unfold conclude.
    destruct (snd (listener_of fromString b (rt_state rt))); exact Ht.
  - (* a promise settles *)
    exact Hphase.
  - (* a continuation is resumed *)
    destruct Hphase as [(_ & Hp & _) | [(Ht & Hl & p0 & k0 & Hp & Hk0) | (Ht & Hl & Hp)]].
    + rewrite Hp in Hk. destruct before; discriminate.
    + rewrite Hp in Hk.
      assert (before = [] /\ after = [] /\ k = k0) as (-> & -> & ->).
      { destruct before as [| x before].
        - cbn in Hk. inversion Hk; subst. now repeat split.
        - cbn in Hk. inversion Hk as [[Hx Hnil]]. destruct before; discriminate. }
      destruct (Hk0 o (rt_state rt) Hl) as [Hfin Hreg].
      right. right. unfold conclude. cbn [app].
      destruct (k0 o (rt_state rt)) as [s1 r1]. cbn in Hfin, Hreg |- *.
      assert (Hreg' : listeners s1 = [] \/ listeners s1 = buttons_of d).
      { destruct Hreg as [H | H]; [now left | right].
        rewrite H. now apply buttons_of_same. }
      destruct r1 as [a | e | q kq]; cbn;
        [ | | now destruct Hfin];
        (split; [exact Ht | split; [exact Hreg' | constructor]]).
    + right. right. rewrite Hk in Hp. apply Forall_app in Hp as [Hb Ha].
      inversion Ha as [| pk rest Hpk Hrest]; subst.
      destruct (conclude_ok same_listeners (rt_state rt) (k o (rt_state rt))
                  (before ++ after)%list (rt_settled rt) (rt_loaded rt)
                  (Hpk o (rt_state rt)))
        as [Hsame Hpool]; [apply Forall_app; now split |].
      unfold same_listeners in Hsame. rewrite Hsame.
      split; [| split; [exact Hl | exact Hpool]].
      unfold conclude. destruct (snd (k o (rt_state rt))); exact Ht.
  - exact Hphase.
  - exact Hphase.
Qed.

Lemma buttons_of_NoDup d : NoDup (buttons_of d).
Proof.
  unfold buttons_of. apply NoDup_filter.
  repeat constructor; cbn; intuition discriminate.
Qed.

(** X19. In every state the page can reach, the registered click listeners
    are either none (the page-load handler has not finished, or
    initialization failed) or exactly one for each button of the page: no
    button ever has two listeners, so a click runs its handler once. *)
Theorem one_listener_per_button (fromString : string -> JsError + TopicId) d rt :
  steps fromString (initial_runtime d) rt ->
  (listeners (rt_state rt) = [] \/ listeners (rt_state rt) = buttons_of d)
  /\ NoDup (listeners (rt_state rt)).
Proof.
  intros Hsteps.
  assert (H : page_phase d rt
              /\ same_page (initial_state d) (rt_state rt)
              /\ pool_ok same_page (rt_pool rt)).
  { remember (initial_runtime d) as rt0 eqn:E.
    induction Hsteps as [rt | rt1 rt2 rt3 H12 IH H23].
    - subst rt. split; [left; now repeat split |].
      split; [apply same_elements_refl | constructor].
    - destruct (IH E) as (Hph & Hpage & Hpool).
      split; [eapply step_phase; [exact H23 | | exact Hph] |].
      + subst rt1. exact Hpage.
      + destruct (steps_same_page fromString rt2 rt3
                    (steps_snoc _ _ _ _ (steps_refl _ _) H23) Hpool) as [Hs Hp'].
        split; [eapply same_page_trans; eassumption | exact Hp']. }
  destruct H as (Hph & _).
  assert (Hl : listeners (rt_state rt) = [] \/ listeners (rt_state rt) = buttons_of d).
  { destruct Hph as [(_ & _ & Hl) | [(_ & Hl & _) | (_ & Hl & _)]];
      [now left | now left | exact Hl]. }
  split; [exact Hl |].
  destruct Hl as [-> | ->]; [constructor | apply buttons_of_NoDup].
Qed.

Lemma one_listener_per_button_witness :
  listeners (rt_state (page_after parse_TopicId demo_page
                         ((demo_load ++ demo_create) ++ demo_later)))
  = [disconnectButton; createTopicButton; submitMessageButton].
Proof.
  destruct (one_listener_per_button parse_TopicId demo_page
              (page_after parse_TopicId demo_page
                 ((demo_load ++ demo_create) ++ demo_later))) as [[H | H] _].
  - unfold page_after.
    destruct (perform_all parse_TopicId (initial_runtime demo_page)
                ((demo_load ++ demo_create) ++ demo_later)) eqn:E.
    + now apply perform_all_steps in E.
    + apply steps_refl.
  - vm_compute in H. discriminate.
  - rewrite H. reflexivity.
Defined.
